(** * Paws & Tails: the age parser, the filter engine, the paginator and the
      price calculator of [src/js/main.js], embedded in Rocq.

    Conventions of the embedding.

    - JavaScript strings are modelled by [string]; a character [c] stands for
      the code point U+0000..U+00FF with the same number (Latin-1), which is
      closed under [toLowerCase] and [trim].
    - JavaScript numbers met by the program are integers, modelled by [Z];
      [NaN] is the [None] of [option Z].  A double represents every integer
      up to [MAX_SAFE_INTEGER] exactly, so statements that read a number off
      a decimal numeral are made inside that range; negative zero is
      identified with zero.
    - A plain object literal is an association list of own properties, and a
      property read falls back to [Object.prototype], as it does in the
      language. *)

From Stdlib Require Import ZArith List Bool Ascii String Lia.
From Stdlib Require Import DecimalString DecimalNat.
Import ListNotations.

Local Open Scope string_scope.
Local Open Scope Z_scope.

(** ** JavaScript values *)

(** What a property of [Object.prototype] evaluates to: one of its native
    functions, or the prototype object itself (through [__proto__]). *)
Inductive builtin : Type :=
| NativeFunction (name : string)
| ObjectPrototype.

#[local] Set Warnings "-register-all".
Inductive value : Type :=
| VUndefined
| VNull
| VBoolean (b : bool)
| VNumber (n : Z)
| VNaN
| VString (s : string)
| VObject (fields : list (string * value))
| VBuiltin (b : builtin).
#[local] Set Warnings "register-all".

(** ToBoolean. *)
Definition truthy (v : value) : bool :=
  match v with
  | VUndefined | VNull | VNaN => false
  | VBoolean b => b
  | VNumber n => negb (n =? 0)
  | VString s => negb (s =? "")%string
  | VObject _ | VBuiltin _ => true
  end.

(** [typeof v === 'string'] *)
Definition is_string (v : value) : bool :=
  match v with VString _ => true | _ => false end.

(** [a || b] *)
Definition js_or (a b : value) : value := if truthy a then a else b.

(** The properties every plain object inherits from [Object.prototype]
    (ECMAScript 20.1.3 and Annex B.2.2). *)
Definition ObjectPrototype_properties : list (string * value) :=
  [ ("constructor", VBuiltin (NativeFunction "Object"));
    ("hasOwnProperty", VBuiltin (NativeFunction "hasOwnProperty"));
    ("isPrototypeOf", VBuiltin (NativeFunction "isPrototypeOf"));
    ("propertyIsEnumerable", VBuiltin (NativeFunction "propertyIsEnumerable"));
    ("toLocaleString", VBuiltin (NativeFunction "toLocaleString"));
    ("toString", VBuiltin (NativeFunction "toString"));
    ("valueOf", VBuiltin (NativeFunction "valueOf"));
    ("__proto__", VBuiltin ObjectPrototype);
    ("__defineGetter__", VBuiltin (NativeFunction "__defineGetter__"));
    ("__defineSetter__", VBuiltin (NativeFunction "__defineSetter__"));
    ("__lookupGetter__", VBuiltin (NativeFunction "__lookupGetter__"));
    ("__lookupSetter__", VBuiltin (NativeFunction "__lookupSetter__")) ].

Fixpoint assoc {B : Type} (key : string) (l : list (string * B)) : option B :=
  match l with
  | [] => None
  | (k, v) :: l' => if (k =? key)%string then Some v else assoc key l'
  end.

(** [obj[key]] on an object literal with own properties [own]: the own
    property, else the inherited one, else [undefined]. *)
Definition get_property (own : list (string * value)) (key : string) : value :=
  match assoc key own with
  | Some v => v
  | None =>
      match assoc key ObjectPrototype_properties with
      | Some v => v
      | None => VUndefined
      end
  end.

(** [v.key] for the two keys the program reads off an age range, [min] and
    [max]: neither the native functions nor [Object.prototype] define them,
    and reading them off a primitive gives [undefined]. *)
Definition member (v : value) (key : string) : value :=
  match v with
  | VObject fields => get_property fields key
  | _ => VUndefined
  end.

(** ToNumber of the operand of a comparison: [None] is [NaN].  [undefined],
    objects and functions convert to [NaN].  A string converts through its
    numeric literal; no string reaches a comparison in this program (the
    bounds of an age range are numbers, or undefined), and the model takes
    it to [NaN]. *)
Definition to_number (v : value) : option Z :=
  match v with
  | VNumber n => Some n
  | VNull | VBoolean false => Some 0
  | VBoolean true => Some 1
  | VUndefined | VNaN | VString _ | VObject _ | VBuiltin _ => None
  end.

(** [a >= b] and [a <= b] for a number [a]: every comparison with [NaN] is
    false. *)
Definition js_ge (a : Z) (b : value) : bool :=
  match to_number b with Some n => a >=? n | None => false end.

Definition js_le (a : Z) (b : value) : bool :=
  match to_number b with Some n => a <=? n | None => false end.

Definition MAX_SAFE_INTEGER : Z := 2 ^ 53 - 1.

(** ToString of an integer (of magnitude below 10^21, where no exponent is
    printed) and of what [Object.prototype] holds (native functions print
    as V8 prints them). *)
Definition number_to_string (n : Z) : string :=
  NilZero.string_of_int (Z.to_int n).

Definition builtin_to_string (b : builtin) : string :=
  match b with
  | NativeFunction name => "function " ++ name ++ "() { [native code] }"
  | ObjectPrototype => "[object Object]"
  end.

(** [a + b] for a number [a]: numeric addition when [b] converts to a
    number, string concatenation when [b] is a string, an object or a
    function. *)
Definition js_add (a : Z) (b : value) : value :=
  match b with
  | VNumber n => VNumber (a + n)
  | VBoolean true => VNumber (a + 1)
  | VBoolean false | VNull => VNumber a
  | VUndefined | VNaN => VNaN
  | VString s => VString (number_to_string a ++ s)
  | VObject _ => VString (number_to_string a ++ "[object Object]")
  | VBuiltin f => VString (number_to_string a ++ builtin_to_string f)
  end.

(** ** Strings *)

Definition code (c : ascii) : N := N_of_ascii c.

(** WhiteSpace and LineTerminator code points below U+0100: TAB, LF, VT, FF,
    CR, SP and NBSP. *)
Definition is_white_space (c : ascii) : bool :=
  let n := code c in
  ((9 <=? n) && (n <=? 13) || (n =? 32) || (n =? 160))%N.

Fixpoint trimStart (s : string) : string :=
  match s with
  | String c r => if is_white_space c then trimStart r else s
  | EmptyString => EmptyString
  end.

Fixpoint trimEnd (s : string) : string :=
  match s with
  | String c r =>
      match trimEnd r with
      | EmptyString => if is_white_space c then EmptyString else String c EmptyString
      | r' => String c r'
      end
  | EmptyString => EmptyString
  end.

(** [s.trim()] *)
Definition trim (s : string) : string := trimEnd (trimStart s).

Definition lower_char (c : ascii) : ascii :=
  let n := code c in
  if ((65 <=? n) && (n <=? 90) || (192 <=? n) && (n <=? 222) && negb (n =? 215))%N
  then ascii_of_N (n + 32)
  else c.

(** [s.toLowerCase()] *)
Fixpoint toLowerCase (s : string) : string :=
  match s with
  | String c r => String (lower_char c) (toLowerCase r)
  | EmptyString => EmptyString
  end.

(** [s.split(sep)] for a one-character separator; the result is never
    empty: the empty string splits into one empty part. *)
Fixpoint split (sep : ascii) (s : string) : list string :=
  match s with
  | EmptyString => [EmptyString]
  | String c r =>
      if Ascii.eqb c sep then EmptyString :: split sep r
      else match split sep r with
           | part :: parts => String c part :: parts
           | [] => [String c EmptyString]
           end
  end.

(** [hay.includes(needle)] *)
Fixpoint includes (hay needle : string) : bool :=
  String.prefix needle hay ||
  match hay with
  | String _ r => includes r needle
  | EmptyString => false
  end.

(** ** parseInt with no radix argument (ECMAScript 19.2.5) *)

(** The value of a character as a digit, for letters up to radix 36. *)
Definition digit_value (c : ascii) : option Z :=
  let n := code c in
  if ((48 <=? n) && (n <=? 57))%N then Some (Z.of_N n - 48)
  else if ((97 <=? n) && (n <=? 122))%N then Some (Z.of_N n - 87)
  else if ((65 <=? n) && (n <=? 90))%N then Some (Z.of_N n - 55)
  else None.

(** The longest prefix of [s] made of digits of the radix. *)
Fixpoint leading_digits (radix : Z) (s : string) : list Z :=
  match s with
  | String c r =>
      match digit_value c with
      | Some d => if d <? radix then d :: leading_digits radix r else []
      | None => []
      end
  | EmptyString => []
  end.

Definition digits_value (radix : Z) (ds : list Z) : Z :=
  fold_left (fun acc d => acc * radix + d) ds 0.

Definition strip_sign (s : string) : Z * string :=
  match s with
  | String "-" r => (-1, r)
  | String "+" r => (1, r)
  | _ => (1, s)
  end.

(** With the radix left out, a [0x] or [0X] prefix selects radix 16. *)
Definition strip_prefix (s : string) : Z * string :=
  match s with
  | String "0" (String "x" r) => (16, r)
  | String "0" (String "X" r) => (16, r)
  | _ => (10, s)
  end.

Definition parseInt (s : string) : option Z :=
  let (sign, s1) := strip_sign (trimStart s) in
  let (radix, s2) := strip_prefix s1 in
  match leading_digits radix s2 with
  | [] => None
  | ds => Some (sign * digits_value radix ds)
  end.

(** ** Utils.parseAgeToWeeks *)

Module Utils.

(** [ageString.trim().toLowerCase().split(' ')] *)
Definition parts_of (ageString : string) : list string :=
  split " " (toLowerCase (trim ageString)).

Definition parseAgeToWeeks (ageString : value) : Z :=
  if negb (truthy ageString) || negb (is_string ageString) then 0
  else
    match ageString with
    | VString s =>
        let parts := parts_of s in
        if (Z.of_nat (List.length parts) <? 2) then 0
        else
          let value := parseInt (nth 0 parts EmptyString) in
          let unit := nth 1 parts EmptyString in
          match value with
          | None => 0
          | Some value =>
              if includes unit "week" then value
              else if includes unit "month" then value * 4
              else 0
          end
    | _ => 0
    end.

End Utils.


(** ** Application configuration *)

Module APP_CONFIG.

Module pagination.
Definition itemsPerPage : Z := 10.
Definition maxVisiblePages : Z := 5.
End pagination.

Definition shipping : list (string * value) :=
  [ ("pickup", VNumber 0);
    ("standard", VNumber 150);
    ("handDelivery", VNumber 350) ].

Definition ageRanges : list (string * value) :=
  [ ("8-12 weeks",
     VObject [("min", VNumber 8); ("max", VNumber 12); ("unit", VString "weeks")]);
    ("3-6 months",
     VObject [("min", VNumber 12); ("max", VNumber 24); ("unit", VString "weeks")]) ].

End APP_CONFIG.

(** ** The catalog *)

Record Puppy : Type := {
  id : string;
  name : string;
  breed : string;
  age : string;
  gender : string;
  price : Z;
  description : string;
  vaccinations : string;
  image : string
}.

Definition puppies : list Puppy :=
  [ {| id := "cc01"; name := "Rocco"; breed := "Cane Corso"; age := "11 weeks";
       gender := "Male"; price := 1500;
       description := "Playful and affectionate, Rocco has a very good temperament, good with kids and other pets too.";
       vaccinations := "Up to date";
       image := "./Corso/Business Suite_creation_855328826572794.jpeg" |};
    {| id := "cc02"; name := "Kane"; breed := "Cane Corso"; age := "11 weeks";
       gender := "Male"; price := 1500;
       description := "Sweet and gentle, Kane has a wonderful temperament and loves to play.";
       vaccinations := "Up to date";
       image := "./Corso/Business Suite_creation_848356240607671.jpeg" |};
    {| id := "cc03"; name := "Jack"; breed := "Cane Corso"; age := "11 weeks";
       gender := "Male"; price := 1500;
       description := "Playful and affectionate, Jack has a very good temperament, good with kids and other pets too. Amazing Silver color.";
       vaccinations := "Up to date";
       image := "./Corso/Business Suite_creation_1074296697363514.jpeg" |};
    {| id := "cc04"; name := "Blake"; breed := "Cane Corso"; age := "11 weeks";
       gender := "Male"; price := 1500;
       description := "Energetic and curious, Blake is always ready for an adventure.";
       vaccinations := "Up to date";
       image := "./Corso/ins_link_CA3PXN1BGax_1.jpg" |};
    {| id := "cc05"; name := "Luna"; breed := "Cane Corso"; age := "11 weeks";
       gender := "Female"; price := 1800;
       description := "Intelligent and elegant, Luna is quick to learn and loves attention.";
       vaccinations := "Up to date";
       image := "./Corso/luna.JPG" |};
    {| id := "cc06"; name := "Miya"; breed := "Cane Corso"; age := "10 weeks";
       gender := "Female"; price := 1800;
       description := "Friendly and outgoing, Miya has a great nose and loves to explore.";
       vaccinations := "Up to date";
       image := "./Corso/Miya.jpg" |};
    {| id := "cc07"; name := "Lexi"; breed := "Cane Corso"; age := "10 weeks";
       gender := "Female"; price := 1800;
       description := "Beautiful all black puppy with a playful spirit, Lexi is full of energy.";
       vaccinations := "Up to date";
       image := "./Corso/Lexi.jpg" |};
    {| id := "cc08"; name := "Lucy"; breed := "Cane Corso"; age := "10 weeks";
       gender := "Female"; price := 1800;
       description := "Beautiful all black puppy with a playful spirit, Lucy is full of Love.";
       vaccinations := "Up to date";
       image := "./Corso/Lucy.jpg" |};
    {| id := "ab01"; name := "Brutus"; breed := "American Bully"; age := "10 weeks";
       gender := "Male"; price := 2000;
       description := "Confident and friendly, a true gentle giant. Great family protector.";
       vaccinations := "Up to date";
       image := "./Bully/ins_link_CpAFGY9oyjV_0.jpg" |};
    {| id := "ab02"; name := "Xena"; breed := "American Bully"; age := "9 weeks";
       gender := "Female"; price := 2200;
       description := "Loyal and courageous with a heart of gold. Loves to cuddle.";
       vaccinations := "Up to date";
       image := "./Bully/ins_link_CpAFGY9oyjV_1.jpg" |};
    {| id := "fr01"; name := "Gaston"; breed := "French Bulldog"; age := "8 weeks";
       gender := "Male"; price := 2500;
       description := "Charming and playful with an irresistible personality. Loves attention.";
       vaccinations := "Up to date";
       image := "./frenchie/sample.jpg" |};
    {| id := "st01"; name := "Rocky"; breed := "Staffy"; age := "12 weeks";
       gender := "Male"; price := 1200;
       description := "Energetic and brave, an excellent companion for an active family.";
       vaccinations := "Up to date";
       image := "./Staffy/Screenshot_20250805-002514.png" |} ].

(** ** The page the filters are read from *)

(** The document, as far as the program reads it: the current value of the
    select element with a given id, when there is such an element. *)
Definition Document : Type := string -> option string.

(** ** FilterManager *)

Module FilterManager.

Definition getFilterValue (document : Document) (elementId : string) : string :=
  match document elementId with
  | Some v => v
  | None => "all"
  end.

Definition matchesBreedFilter (puppy : Puppy) (breedFilter : string) : bool :=
  (breedFilter =? "all")%string || (breed puppy =? breedFilter)%string.

Definition matchesAgeFilter (puppy : Puppy) (ageFilter : string) : bool :=
  if (ageFilter =? "all")%string then true
  else
    let puppyAgeInWeeks := Utils.parseAgeToWeeks (VString (age puppy)) in
    let ageRange := get_property APP_CONFIG.ageRanges ageFilter in
    if negb (truthy ageRange) then true
    else js_ge puppyAgeInWeeks (member ageRange "min")
         && js_le puppyAgeInWeeks (member ageRange "max").

Definition matchesGenderFilter (puppy : Puppy) (genderFilter : string) : bool :=
  (genderFilter =? "all")%string || (gender puppy =? genderFilter)%string.

(** The object [getActiveFilters] returns; its fields are [breed], [age]
    and [gender] in the source. *)
Record Filters : Type := {
  breed_filter : string;
  age_filter : string;
  gender_filter : string
}.

Definition getActiveFilters (document : Document) : Filters :=
  {| breed_filter := getFilterValue document "breed-filter";
     age_filter := getFilterValue document "age-filter";
     gender_filter := getFilterValue document "gender-filter" |}.

Definition applyFilters (document : Document) (puppies : list Puppy) : list Puppy :=
  let filters := getActiveFilters document in
  filter (fun puppy =>
            matchesBreedFilter puppy (breed_filter filters)
            && matchesAgeFilter puppy (age_filter filters)
            && matchesGenderFilter puppy (gender_filter filters))
         puppies.

End FilterManager.

(** ** Arrays *)

(** [items.slice(start, end)] for integer bounds: a negative bound counts
    from the end of the array, and both are clamped to [0, length]. *)
Definition slice {A : Type} (items : list A) (start end_ : Z) : list A :=
  let len := Z.of_nat (List.length items) in
  let k := if start <? 0 then Z.max (len + start) 0 else Z.min start len in
  let final := if end_ <? 0 then Z.max (len + end_) 0 else Z.min end_ len in
  firstn (Z.to_nat (final - k)) (skipn (Z.to_nat k) items).

(** [Math.ceil(a / b)] for integers [a] and [b > 0]. *)
Definition ceil_quotient (a b : Z) : Z :=
  if a mod b =? 0 then a / b else a / b + 1.

(** The values [i] takes in [for (let i = first; ...; i++)] over [n] rounds. *)
Fixpoint count_up (first : Z) (n : nat) : list Z :=
  match n with
  | O => []
  | S n' => first :: count_up (first + 1) n'
  end.

(** [for (let i = first; i <= last; i++)] *)
Definition for_range (first last : Z) : list Z :=
  count_up first (Z.to_nat (last - first + 1)).

(** ** PaginationManager *)

Module PaginationManager.

Record t : Type := { currentPage : Z }.

Definition initial : t := {| currentPage := 1 |}.

(** What [createPaginationItem] builds: the list item, its link and, unless
    disabled, the page a click moves to. *)
Record PaginationItem : Type := {
  text : string;
  page : Z;
  disabled : bool;
  ariaLabel : string;
  active : bool
}.

Definition createPaginationItem
    (text : string) (page : Z) (disabled : bool) (ariaLabel : string)
    (active : bool) : PaginationItem :=
  {| text := text; page := page; disabled := disabled;
     ariaLabel := ariaLabel; active := active |}.

(** The click listener of an item: absent on a disabled item. *)
Definition click (this : t) (item : PaginationItem) : t :=
  if disabled item then this else {| currentPage := page item |}.

Definition pageCount {A : Type} (items : list A) : Z :=
  ceil_quotient (Z.of_nat (List.length items)) APP_CONFIG.pagination.itemsPerPage.

Definition startPage (this : t) : Z := Z.max 1 (currentPage this - 2).

Definition endPage {A : Type} (this : t) (items : list A) : Z :=
  Z.min (pageCount items) (startPage this + 4).

(** [render]: the children of the list put into the container, or nothing
    when there is no container; the container is left empty when there is
    at most one page. *)
Definition render {A : Type} (this : t) (items : list A)
    (container : option (list PaginationItem)) : option (list PaginationItem) :=
  match container with
  | None => None
  | Some _ =>
      if pageCount items <=? 1 then Some []
      else
        Some
          (createPaginationItem "&laquo;" (currentPage this - 1)
             (currentPage this =? 1) "Previous" false
           :: map (fun i =>
                     createPaginationItem (number_to_string i) i false
                       ("Page " ++ number_to_string i) (i =? currentPage this))
                  (for_range (startPage this) (endPage this items))
           ++ [createPaginationItem "&raquo;" (currentPage this + 1)
                 (currentPage this =? pageCount items) "Next" false])
  end.

(** The page numbers of the rendered items between Previous and Next. *)
Definition window (rendered : list PaginationItem) : list Z :=
  map page (removelast (tl rendered)).

(** [getItemsForPage(items, page = this.currentPage)] *)
Definition getItemsForPage {A : Type} (this : t) (items : list A)
    (page : option Z) : list A :=
  let page := match page with Some p => p | None => currentPage this end in
  let start := (page - 1) * APP_CONFIG.pagination.itemsPerPage in
  let end_ := start + APP_CONFIG.pagination.itemsPerPage in
  slice items start end_.

Definition reset (this : t) : t := {| currentPage := 1 |}.

End PaginationManager.

(** ** OrderPage *)

Module OrderPage.

Definition getShippingCost (option : string) : value :=
  js_or (get_property APP_CONFIG.shipping option) (VNumber 0).

(** The total the change listener of the delivery select computes:
    [this.selectedPuppy.price + shippingCost]. *)
Definition total (selectedPuppy : Puppy) (deliveryOption : string) : value :=
  let shippingCost := getShippingCost deliveryOption in
  js_add (price selectedPuppy) shippingCost.

End OrderPage.

(** ** Specification vocabulary *)

(** [Selection P l l']: [l'] keeps, in the order of [l], exactly the
    elements of [l] that satisfy [P]. *)
Inductive Selection {A : Type} (P : A -> Prop) : list A -> list A -> Prop :=
| Selection_nil : Selection P [] []
| Selection_keep x l l' : P x -> Selection P l l' -> Selection P (x :: l) (x :: l')
| Selection_drop x l l' : ~ P x -> Selection P l l' -> Selection P (x :: l) l'.

(** A record with a given age, for examples. *)
Definition puppy_aged (a : string) : Puppy :=
  {| id := "x"; name := "X"; breed := "Staffy"; age := a; gender := "Male";
     price := 1200; description := ""; vaccinations := ""; image := "" |}.


(** A page whose three filter selects hold the given values. *)
Definition page_with (breedValue ageValue genderValue : string) : Document :=
  fun elementId =>
    if (elementId =? "breed-filter")%string then Some breedValue
    else if (elementId =? "age-filter")%string then Some ageValue
    else if (elementId =? "gender-filter")%string then Some genderValue
    else None.

(** The surcharge of the specification: the fixed cost of the three
    delivery options, and 0 for every other option. *)
Definition surcharge (deliveryOption : string) : Z :=
  if (deliveryOption =? "pickup")%string then 0
  else if (deliveryOption =? "standard")%string then 150
  else if (deliveryOption =? "handDelivery")%string then 350
  else 0.

(** A property name that a plain object inherits from [Object.prototype]. *)
Definition inherited (key : string) : bool :=
  match assoc key ObjectPrototype_properties with
  | Some _ => true
  | None => false
  end.

(** ** Vocabulary for age strings *)

Fixpoint string_forall (p : ascii -> bool) (s : string) : bool :=
  match s with
  | String c r => p c && string_forall p r
  | EmptyString => true
  end.

Definition is_decimal_digit (c : ascii) : bool :=
  ((48 <=? code c) && (code c <=? 57))%N.

Definition all_digits (s : string) : bool := string_forall is_decimal_digit s.

Definition no_white_space (s : string) : bool :=
  string_forall (fun c => negb (is_white_space c)) s.

Definition no_space (s : string) : bool :=
  string_forall (fun c => negb (Ascii.eqb c " ")) s.

(** A string made of white space only. *)
Definition all_white_space (s : string) : bool := string_forall is_white_space s.

(** The decimal numeral of a natural number. *)
Definition decimal (n : nat) : string := NilEmpty.string_of_uint (Nat.to_uint n).

(** The number a string of decimal digits denotes, digit by position. *)
Fixpoint numeral_value (s : string) : Z :=
  match s with
  | String c r =>
      (Z.of_N (code c) - 48) * 10 ^ Z.of_nat (String.length r) + numeral_value r
  | EmptyString => 0
  end.

Definition starts_with_digit (s : string) : bool :=
  match s with
  | String c _ => is_decimal_digit c
  | EmptyString => false
  end.

(** A token is numeric when, after leading white space and an optional
    sign, it begins with a decimal digit. *)
Definition numeric_start (token : string) : bool :=
  starts_with_digit (snd (strip_sign (trimStart token))).

Definition has_hex_prefix (token : string) : bool :=
  match token with
  | String "0" (String c _) => Ascii.eqb c "x" || Ascii.eqb c "X"
  | _ => false
  end.

(** The digits of a string of decimal digits, most significant first. *)
Fixpoint digits_of (s : string) : list Z :=
  match s with
  | String c r => (Z.of_N (code c) - 48) :: digits_of r
  | EmptyString => []
  end.

(** The string holding one TAB character. *)
Definition tab : string := String (ascii_of_N 9) EmptyString.

(** ** Proof automation *)

(** Case analysis over the 256 characters, closing the cases that
    compute. *)
Ltac ascii_cases c :=
  destruct c as [[] [] [] [] [] [] [] []]; try reflexivity; try discriminate.

(** * The rest of the program *)

From Stdlib Require Import DecimalPos DecimalZ.

(** ** Utils.debounce *)

(** [Subsequence l l']: [l] is [l'] with some elements left out. *)
Inductive Subsequence {A : Type} : list A -> list A -> Prop :=
| Subsequence_nil : Subsequence [] []
| Subsequence_keep x l l' : Subsequence l l' -> Subsequence (x :: l) (x :: l')
| Subsequence_skip x l l' : Subsequence l l' -> Subsequence l (x :: l').

(** The function [debounce(func, wait)] returns, with the timers it sets.
    The host's timer table is part of the state; when a timer expires is
    the host's choice and is an event of its own, so the delay [wait] does
    not appear. *)
Module Debounced.

Section Debounced.

Context {Args : Type}.

Record t : Type := {
  (** the variable [timeout]: the id [setTimeout] returned last *)
  timeout : option nat;
  (** the timers that are set and have neither expired nor been cleared,
      each with the arguments its [later] closure captured *)
  timers : list (nat * Args);
  (** the id the next [setTimeout] returns *)
  next_id : nat;
  (** the calls of [func] so far, oldest first *)
  invoked : list Args
}.

Definition initial : t :=
  {| timeout := None; timers := []; next_id := 1%nat; invoked := [] |}.

(** [clearTimeout(id)]: no effect when [id] is undefined or names no
    pending timer. *)
Definition clearTimeout (id : option nat) (pending : list (nat * Args))
  : list (nat * Args) :=
  match id with
  | None => pending
  | Some i => filter (fun timer => negb (fst timer =? i)%nat) pending
  end.

(** [executedFunction(...args)] *)
Definition executedFunction (args : Args) (this : t) : t :=
  let pending := clearTimeout (timeout this) (timers this) in
  {| timeout := Some (next_id this);
     timers := pending ++ [(next_id this, args)];
     next_id := S (next_id this);
     invoked := invoked this |}.

(** The timer [id] expires: the host drops it and runs its [later], which
    clears [timeout] and calls [func].  [None] when no such timer is
    pending. *)
Definition expire (id : nat) (this : t) : option t :=
  match find (fun timer => (fst timer =? id)%nat) (timers this) with
  | None => None
  | Some (_, args) =>
      let pending := clearTimeout (Some id) (timers this) in
      Some {| timeout := timeout this;
              timers := clearTimeout (timeout this) pending;
              next_id := next_id this;
              invoked := invoked this ++ [args] |}
  end.

Inductive event : Type :=
| Call (args : Args)
| Expire (id : nat).

Definition step (this : t) (e : event) : option t :=
  match e with
  | Call args => Some (executedFunction args this)
  | Expire id => expire id this
  end.

(** A run of events; [None] when a timer expires that is not pending. *)
Fixpoint run (events : list event) (this : t) : option t :=
  match events with
  | [] => Some this
  | e :: events' =>
      match step this e with
      | Some next => run events' next
      | None => None
      end
  end.

(** The arguments of the calls in a run, oldest first. *)
Fixpoint calls (events : list event) : list Args :=
  match events with
  | [] => []
  | Call args :: events' => args :: calls events'
  | Expire _ :: events' => calls events'
  end.

(** At most one timer is pending, the one [timeout] names. *)
Definition single_timer (this : t) : Prop :=
  timers this = []
  \/ exists id args, timers this = [(id, args)] /\ timeout this = Some id.

End Debounced.

Arguments t : clear implicits.
Arguments event : clear implicits.

End Debounced.

(** ** Utils.formatPrice *)

(** [n.toFixed(2)] for an integer [n] (of magnitude below 10^21). *)
Definition toFixed_2 (n : Z) : string := number_to_string n ++ ".00".

(** [Utils.formatPrice(price)]; [None] is the TypeError of calling
    [toFixed] on a value that has none: [toFixed] lives on
    [Number.prototype] only.  (An object that carries a [toFixed] of its
    own does not occur and is not modelled apart.) *)
Definition formatPrice (price : value) : option string :=
  match price with
  | VNumber n => Some ("$" ++ toFixed_2 n)
  | VNaN => Some "$NaN"
  | VUndefined | VNull | VBoolean _ | VString _ | VObject _ | VBuiltin _ => None
  end.

(** ** AvailablePage *)

(** The page of available puppies, with the [PaginationManager] it drives.
    The global array [puppies] is passed to [init] and [applyFilters]; a
    card is modelled by the record it shows. *)
Module AvailablePage.

(** What the element [puppy-grid] holds. *)
Inductive Grid : Type :=
| NoResults
| Cards (cards : list Puppy).

Record t : Type := {
  filteredPuppies : list Puppy;
  (** the object [PaginationManager] *)
  pagination : PaginationManager.t;
  (** [elements.puppyGrid] and [elements.paginationContainer], with their
      content; [None] when the page has no such element *)
  puppyGrid : option Grid;
  paginationContainer : option (list PaginationManager.PaginationItem)
}.

Definition renderPuppyGrid (this : t) : t :=
  match puppyGrid this with
  | None => this
  | Some _ =>
      let grid :=
        if Z.of_nat (List.length (filteredPuppies this)) =? 0 then NoResults
        else Cards (PaginationManager.getItemsForPage
                      (pagination this) (filteredPuppies this) None) in
      {| filteredPuppies := filteredPuppies this;
         pagination := pagination this;
         puppyGrid := Some grid;
         paginationContainer := paginationContainer this |}
  end.

Definition renderPagination (this : t) : t :=
  {| filteredPuppies := filteredPuppies this;
     pagination := pagination this;
     puppyGrid := puppyGrid this;
     paginationContainer :=
       PaginationManager.render (pagination this) (filteredPuppies this)
         (paginationContainer this) |}.

Definition render (this : t) : t := renderPagination (renderPuppyGrid this).

(** [init], on a page that has or lacks the two elements; the pagination
    object is in its initial state. *)
Definition init (puppies : list Puppy) (hasGrid hasContainer : bool) : t :=
  render
    {| filteredPuppies := puppies;
       pagination := PaginationManager.initial;
       puppyGrid := if hasGrid then Some (Cards []) else None;
       paginationContainer := if hasContainer then Some [] else None |}.

Definition applyFilters (puppies : list Puppy) (document : Document) (this : t) : t :=
  render
    {| filteredPuppies := FilterManager.applyFilters document puppies;
       pagination := PaginationManager.reset (pagination this);
       puppyGrid := puppyGrid this;
       paginationContainer := paginationContainer this |}.

(** A click on a pagination item: its listener, when it has one, sets the
    current page and calls [onPageChange], which is [render]. *)
Definition clickItem (item : PaginationManager.PaginationItem) (this : t) : t :=
  if PaginationManager.disabled item then this
  else
    render
      {| filteredPuppies := filteredPuppies this;
         pagination := PaginationManager.click (pagination this) item;
         puppyGrid := puppyGrid this;
         paginationContainer := paginationContainer this |}.

(** The states the page goes through: after [init], every filtering and
    every click on an item that is in the container. *)
Inductive reachable (puppies : list Puppy) : t -> Prop :=
| reachable_init hasGrid hasContainer :
    reachable puppies (init puppies hasGrid hasContainer)
| reachable_applyFilters document this :
    reachable puppies this ->
    reachable puppies (applyFilters puppies document this)
| reachable_clickItem item items this :
    reachable puppies this ->
    paginationContainer this = Some items -> In item items ->
    reachable puppies (clickItem item this).

End AvailablePage.

(** ** OrderPage: the selected puppy and the order summary *)

Module OrderSummary.

(** [loadPuppyData] for the value of the URL parameter [puppyId] ([None]
    when the URL has no such parameter): [puppies.find(p => p.id ===
    puppyId)]. *)
Definition loadPuppyData (puppies : list Puppy) (puppyId : option string)
  : option Puppy :=
  find (fun p => match puppyId with
                 | Some wanted => (id p =? wanted)%string
                 | None => false
                 end)
       puppies.

(** What the element [order-content] holds after [render]. *)
Inductive Content : Type :=
| NoPuppySelected
| OrderForm (summaryShipping summaryTotal : string).

Record t : Type := {
  selectedPuppy : option Puppy;
  (** [None] when the page has no element [order-content] *)
  orderContent : option Content
}.

(** [generateOrderSummary]: shipping of 0 and the price as the total. *)
Definition generateOrderSummary (puppy : Puppy) : option Content :=
  match formatPrice (VNumber 0), formatPrice (VNumber (price puppy)) with
  | Some shipping, Some total => Some (OrderForm shipping total)
  | _, _ => None
  end.

Definition render (this : t) : t :=
  match orderContent this with
  | None => this
  | Some _ =>
      {| selectedPuppy := selectedPuppy this;
         orderContent :=
           match selectedPuppy this with
           | Some puppy => generateOrderSummary puppy
           | None => Some NoPuppySelected
           end |}
  end.

Definition init (puppies : list Puppy) (hasOrderContent : bool)
    (puppyId : option string) : t :=
  render
    {| selectedPuppy := loadPuppyData puppies puppyId;
       orderContent := if hasOrderContent then Some NoPuppySelected else None |}.

(** How the change listener of the delivery select ends: normally, or with
    a TypeError; either way with the page as the listener left it. *)
Inductive Outcome : Type :=
| Returned (after : t)
| Thrown (after : t).


Definition after (outcome : Outcome) : t :=
  match outcome with
  | Returned this => this
  | Thrown this => this
  end.


End OrderSummary.

(** What the grid shows for a list and a pagination state. *)
Definition shown_grid (filtered : list Puppy) (pagination : PaginationManager.t)
  : AvailablePage.Grid :=
  if Z.of_nat (List.length filtered) =? 0 then AvailablePage.NoResults
  else AvailablePage.Cards
         (PaginationManager.getItemsForPage pagination filtered None).

(** The page is consistent: the current page exists (it is page 1 when
    there are no pages at all), the controls are those of the current
    state, and so is the grid. *)
Definition consistent (this : AvailablePage.t) : Prop :=
  let filtered := AvailablePage.filteredPuppies this in
  let pagination := AvailablePage.pagination this in
  1 <= PaginationManager.currentPage pagination
    <= Z.max 1 (PaginationManager.pageCount filtered)
  /\ (forall items,
         AvailablePage.paginationContainer this = Some items ->
         PaginationManager.render pagination filtered (Some items) = Some items)
  /\ (forall grid,
         AvailablePage.puppyGrid this = Some grid ->
         grid = shown_grid filtered pagination).

(** ** Vocabulary for hexadecimal numerals *)

Definition is_hex_digit (c : ascii) : bool :=
  match digit_value c with
  | Some d => d <? 16
  | None => false
  end.

Definition all_hex_digits (s : string) : bool := string_forall is_hex_digit s.

(** The value of a hexadecimal digit: 0 to 9, and 10 to 15 for the letters
    a to f in either case. *)
Definition hex_digit_value (c : ascii) : Z :=
  let n := Z.of_N (code c) in
  if n <=? 57 then n - 48 else if n <=? 70 then n - 55 else n - 87.

(** The number a string of hexadecimal digits denotes, digit by position. *)
Fixpoint hex_value (s : string) : Z :=
  match s with
  | String c r => hex_digit_value c * 16 ^ Z.of_nat (String.length r) + hex_value r
  | EmptyString => 0
  end.

Definition starts_with_hex_digit (s : string) : bool :=
  match s with
  | String c _ => is_hex_digit c
  | EmptyString => false
  end.

(** * Properties *)

(** ** The program on sample inputs *)

Example age_11_weeks : Utils.parseAgeToWeeks (VString "11 weeks") = 11.
Proof. reflexivity. Qed.

Example age_3_months : Utils.parseAgeToWeeks (VString "3 Months") = 12.
Proof. reflexivity. Qed.

Example age_hex : Utils.parseAgeToWeeks (VString "0x10 weeks") = 16.
Proof. reflexivity. Qed.

Example age_two_spaces : Utils.parseAgeToWeeks (VString "12  weeks") = 0.
Proof. reflexivity. Qed.

Example total_hand_delivery :
  OrderPage.total (hd (puppy_aged "") puppies) "handDelivery" = VNumber 1850.
Proof. vm_compute. reflexivity. Qed.

Example total_no_option :
  OrderPage.total (hd (puppy_aged "") puppies) "" = VNumber 1500.
Proof. vm_compute. reflexivity. Qed.

Example page_2 :
  PaginationManager.getItemsForPage PaginationManager.initial (map name puppies) (Some 2)
  = ["Gaston"; "Rocky"].
Proof. vm_compute. reflexivity. Qed.

Example page_minus_1 :
  PaginationManager.getItemsForPage PaginationManager.initial (map name puppies) (Some (-1))
  = ["Rocco"; "Kane"].
Proof. vm_compute. reflexivity. Qed.

Example filter_cane_corso_female :
  map name (FilterManager.applyFilters (page_with "Cane Corso" "all" "Female") puppies)
  = ["Luna"; "Miya"; "Lexi"; "Lucy"].
Proof. vm_compute. reflexivity. Qed.

Example filter_without_selects :
  FilterManager.applyFilters (fun _ => None) puppies = puppies.
Proof. vm_compute. reflexivity. Qed.

Example reset_currentPage (this : PaginationManager.t) :
  PaginationManager.currentPage (PaginationManager.reset this) = 1.
Proof. reflexivity. Qed.

(** ** Property reads *)

Lemma get_property_not_inherited own key :
  inherited key = false ->
  get_property own key = match assoc key own with Some v => v | None => VUndefined end.
Proof.
  unfold inherited, get_property. intros H.
  destruct (assoc key own); [reflexivity|].
  destruct (assoc key ObjectPrototype_properties); [discriminate|reflexivity].
Qed.

(** ** Characters and strings *)

Lemma digit_not_white_space c : is_decimal_digit c = true -> is_white_space c = false.
Proof. ascii_cases c. Qed.

Lemma digit_lower_char c : is_decimal_digit c = true -> lower_char c = c.
Proof. ascii_cases c. Qed.

Lemma digit_digit_value c :
  is_decimal_digit c = true ->
  digit_value c = Some (Z.of_N (code c) - 48) /\ 0 <= Z.of_N (code c) - 48 < 10.
Proof. ascii_cases c; intros _; split; try reflexivity; vm_compute; split; congruence. Qed.

Lemma not_digit_leading c r :
  is_decimal_digit c = false -> leading_digits 10 (String c r) = [].
Proof. ascii_cases c. Qed.

Lemma lower_char_not_space c :
  Ascii.eqb c " " = false -> Ascii.eqb (lower_char c) " " = false.
Proof. ascii_cases c. Qed.

Lemma white_space_space c : is_white_space c = false -> Ascii.eqb c " " = false.
Proof. ascii_cases c. Qed.

Lemma string_forall_impl (p q : ascii -> bool) s :
  (forall c, p c = true -> q c = true) ->
  string_forall p s = true -> string_forall q s = true.
Proof.
  intros Hpq. induction s as [|c r IH]; simpl; [reflexivity|].
  rewrite !andb_true_iff. intros [Hc Hr]. auto.
Qed.

Lemma string_forall_app p a b :
  string_forall p (a ++ b) = string_forall p a && string_forall p b.
Proof.
  induction a as [|c r IH]; simpl; [reflexivity|].
  now rewrite IH, andb_assoc.
Qed.

Lemma no_white_space_no_space s : no_white_space s = true -> no_space s = true.
Proof.
  unfold no_white_space, no_space.
  apply string_forall_impl. intros c H.
  apply negb_true_iff in H. now rewrite (white_space_space c H).
Qed.

Lemma all_digits_no_white_space s : all_digits s = true -> no_white_space s = true.
Proof.
  unfold all_digits, no_white_space.
  apply string_forall_impl. intros c H. now rewrite (digit_not_white_space c H).
Qed.

Lemma toLowerCase_app a b : toLowerCase (a ++ b) = toLowerCase a ++ toLowerCase b.
Proof. induction a as [|c r IH]; simpl; [reflexivity | now rewrite IH]. Qed.

Lemma toLowerCase_digits s : all_digits s = true -> toLowerCase s = s.
Proof.
  unfold all_digits, no_space, no_white_space.
  induction s as [|c r IH]; simpl; [reflexivity|].
  rewrite andb_true_iff. intros [Hc Hr].
  now rewrite (digit_lower_char c Hc), (IH Hr).
Qed.

Lemma toLowerCase_no_space s : no_space s = true -> no_space (toLowerCase s) = true.
Proof.
  unfold all_digits, no_space, no_white_space.
  induction s as [|c r IH]; simpl; [reflexivity|].
  rewrite !andb_true_iff, !negb_true_iff. intros [Hc Hr].
  split; [now apply lower_char_not_space | auto].
Qed.

(** *** trim *)

Lemma trimEnd_no_white_space s : no_white_space s = true -> trimEnd s = s.
Proof.
  unfold all_digits, no_space, no_white_space.
  induction s as [|c r IH]; simpl; [reflexivity|].
  rewrite andb_true_iff, negb_true_iff. intros [Hc Hr].
  rewrite (IH Hr), Hc. destruct r; reflexivity.
Qed.

Lemma trimEnd_app a b : trimEnd b <> "" -> trimEnd (a ++ b) = a ++ trimEnd b.
Proof.
  intros Hb. induction a as [|c r IH]; simpl; [reflexivity|].
  rewrite IH. destruct (r ++ trimEnd b) eqn:E; [|reflexivity].
  destruct r; simpl in E; [contradiction | discriminate].
Qed.

Lemma trimStart_first c r : is_white_space c = false -> trimStart (String c r) = String c r.
Proof. intros H; simpl; now rewrite H. Qed.

(** A string that begins and ends with a token is left as it is. *)
Lemma trim_between_tokens c a middle b :
  is_white_space c = false ->
  no_white_space b = true -> b <> "" ->
  trim (String c a ++ middle ++ b) = String c a ++ middle ++ b.
Proof.
  intros Hc Hb Hne. unfold trim.
  change (String c a ++ middle ++ b) with (String c (a ++ middle ++ b)).
  rewrite (trimStart_first _ _ Hc).
  change (String c (a ++ middle ++ b)) with ((String c a) ++ (middle ++ b)).
  assert (Hb' : trimEnd b = b) by now apply trimEnd_no_white_space.
  assert (Hm : trimEnd (middle ++ b) = middle ++ b).
  { rewrite trimEnd_app; rewrite Hb'; auto. }
  rewrite trimEnd_app; rewrite Hm; [reflexivity|].
  destruct middle; simpl; [assumption | discriminate].
Qed.

(** *** split *)

Lemma split_no_space s : no_space s = true -> split " " s = [s].
Proof.
  unfold all_digits, no_space, no_white_space.
  induction s as [|c r IH]; simpl; [reflexivity|].
  rewrite andb_true_iff, negb_true_iff. intros [Hc Hr].
  now rewrite Hc, (IH Hr).
Qed.

Lemma split_app a b :
  no_space a = true -> split " " (a ++ String " " b) = a :: split " " b.
Proof.
  unfold no_space.
  induction a as [|c r IH]; simpl; [reflexivity|].
  rewrite andb_true_iff, negb_true_iff. intros [Hc Hr].
  now rewrite Hc, (IH Hr).
Qed.

Lemma split_not_nil s : split " " s <> [].
Proof.
  destruct s as [|c r]; simpl; [discriminate|].
  destruct (Ascii.eqb c " "); [discriminate|].
  destruct (split " " r); discriminate.
Qed.

(** ** parseInt *)

Lemma strip_sign_digit c r :
  is_decimal_digit c = true -> strip_sign (String c r) = (1, String c r).
Proof. ascii_cases c. Qed.

Lemma strip_prefix_spec s :
  has_hex_prefix s = false -> strip_prefix s = (10, s).
Proof.
  destruct s as [|c0 s']; [reflexivity|].
  ascii_cases c0. destruct s' as [|c1 r]; [reflexivity|].
  ascii_cases c1.
Qed.

Lemma all_digits_no_hex_prefix s : all_digits s = true -> has_hex_prefix s = false.
Proof.
  destruct s as [|c0 [|c1 r]]; try reflexivity.
  - intros _. ascii_cases c0.
  - unfold all_digits. simpl. rewrite !andb_true_iff. intros (_ & H1 & _).
    assert (Hx : Ascii.eqb c1 "x" || Ascii.eqb c1 "X" = false)
      by (revert H1; ascii_cases c1).
    ascii_cases c0. exact Hx.
Qed.

Lemma leading_digits_all_digits ds rest :
  all_digits ds = true -> starts_with_digit rest = false ->
  leading_digits 10 (ds ++ rest) = digits_of ds.
Proof.
  unfold all_digits. intros Hds Hrest.
  induction ds as [|c r IH]; simpl.
  - destruct rest as [|c r]; [reflexivity|]. now apply not_digit_leading.
  - simpl in Hds. apply andb_true_iff in Hds as [Hc Hr].
    destruct (digit_digit_value c Hc) as [-> Hlt].
    destruct (Z.ltb_spec (Z.of_N (code c) - 48) 10); [|lia].
    now rewrite (IH Hr).
Qed.

Lemma fold_digits_of ds acc :
  fold_left (fun acc d => acc * 10 + d) (digits_of ds) acc
  = acc * 10 ^ Z.of_nat (String.length ds) + numeral_value ds.
Proof.
  revert acc; induction ds as [|c r IH]; intros acc.
  - simpl. lia.
  - cbn [digits_of fold_left numeral_value String.length].
    rewrite IH, Nat2Z.inj_succ, Z.pow_succ_r by lia. ring.
Qed.

Lemma digits_value_digits_of ds : digits_value 10 (digits_of ds) = numeral_value ds.
Proof. unfold digits_value. rewrite fold_digits_of. lia. Qed.

(** The leading-integer reading of a token that begins with decimal
    digits and carries no hexadecimal prefix. *)
Lemma parseInt_leading_digits ds rest :
  ds <> "" -> all_digits ds = true ->
  starts_with_digit rest = false ->
  has_hex_prefix (ds ++ rest) = false ->
  parseInt (ds ++ rest) = Some (numeral_value ds).
Proof.
  intros Hne Hds Hrest Hhex. unfold parseInt.
  destruct ds as [|c r]; [contradiction|].
  assert (Hc : is_decimal_digit c = true)
    by (unfold all_digits in Hds; simpl in Hds; now apply andb_true_iff in Hds).
  change (String c r ++ rest) with (String c (r ++ rest)) in *.
  rewrite (trimStart_first _ _ (digit_not_white_space c Hc)).
  rewrite (strip_sign_digit c _ Hc), (strip_prefix_spec _ Hhex).
  change (String c (r ++ rest)) with (String c r ++ rest).
  rewrite (leading_digits_all_digits _ _ Hds Hrest).
  rewrite <- digits_value_digits_of.
  cbn [digits_of]. now rewrite Z.mul_1_l.
Qed.

Lemma parseInt_not_numeric token : numeric_start token = false -> parseInt token = None.
Proof.
  unfold numeric_start, parseInt.
  destruct (strip_sign (trimStart token)) as [sign s1]. simpl snd.
  destruct s1 as [|c r]; [reflexivity|]. simpl starts_with_digit. intros Hc.
  assert (Hhex : has_hex_prefix (String c r) = false) by (revert Hc; ascii_cases c).
  rewrite (strip_prefix_spec _ Hhex), (not_digit_leading c r Hc). reflexivity.
Qed.

(** *** Decimal numerals *)

Lemma all_digits_string_of_uint d : all_digits (NilEmpty.string_of_uint d) = true.
Proof. unfold all_digits. induction d; simpl; auto. Qed.

Lemma numeral_value_string_of_uint d acc :
  Z.of_nat (Nat.of_uint_acc d acc)
  = Z.of_nat acc * 10 ^ Z.of_nat (String.length (NilEmpty.string_of_uint d))
    + numeral_value (NilEmpty.string_of_uint d).
Proof.
  revert acc; induction d; intros acc;
    cbn [Nat.of_uint_acc NilEmpty.string_of_uint numeral_value String.length];
    [simpl; lia | ..].
  all: rewrite IHd, ?Nat.tail_add_spec, Nat.tail_mul_spec.
  all: set (len := String.length (NilEmpty.string_of_uint d)).
  all: rewrite (Nat2Z.inj_succ len), Z.pow_succ_r by lia.
  all: match goal with
       | |- context [Z.of_N (code ?c)] =>
           let v := eval vm_compute in (Z.of_N (code c)) in
           change (Z.of_N (code c)) with v
       end.
  all: rewrite ?Nat2Z.inj_succ, Nat2Z.inj_mul; unfold Z.succ;
    change (Z.of_nat 10) with 10; ring.
Qed.

Lemma numeral_value_decimal n : numeral_value (decimal n) = Z.of_nat n.
Proof.
  unfold decimal.
  rewrite <- (DecimalNat.Unsigned.of_to n) at 2.
  unfold Nat.of_uint. rewrite numeral_value_string_of_uint. simpl. lia.
Qed.

Lemma all_digits_decimal n : all_digits (decimal n) = true.
Proof. apply all_digits_string_of_uint. Qed.

Lemma decimal_not_empty n : decimal n <> "".
Proof.
  unfold decimal. intros H.
  pose proof (DecimalNat.Unsigned.of_to n) as Hn.
  destruct (Nat.to_uint n) eqn:E; try discriminate H.
  simpl in Hn. subst n. discriminate E.
Qed.

Lemma parseInt_decimal n : parseInt (decimal n) = Some (Z.of_nat n).
Proof.
  rewrite <- (numeral_value_decimal n).
  rewrite <- (parseInt_leading_digits (decimal n) "").
  - f_equal. clear. induction (decimal n); simpl; congruence.
  - apply decimal_not_empty.
  - apply all_digits_decimal.
  - reflexivity.
  - replace (decimal n ++ "") with (decimal n)
      by (clear; induction (decimal n); simpl; congruence).
    apply all_digits_no_hex_prefix, all_digits_decimal.
Qed.

(** ** The age parser *)

Lemma parseAgeToWeeks_parts s :
  Utils.parseAgeToWeeks (VString s)
  = match Utils.parts_of s with
    | token :: unit :: _ =>
        match parseInt token with
        | None => 0
        | Some value =>
            if includes unit "week" then value
            else if includes unit "month" then value * 4
            else 0
        end
    | _ => 0
    end.
Proof.
  unfold Utils.parseAgeToWeeks.
  destruct s as [|c r]; [reflexivity|].
  cbn [truthy is_string String.eqb negb orb].
  destruct (Utils.parts_of (String c r)) as [|token [|unit rest]];
    try reflexivity.
  destruct (Z.ltb_spec (Z.of_nat (List.length (token :: unit :: rest))) 2) as [H|H];
    [simpl List.length in H; lia | reflexivity].
Qed.

Lemma parts_of_pair a b :
  a <> "" -> no_white_space a = true ->
  b <> "" -> no_white_space b = true ->
  Utils.parts_of (a ++ " " ++ b) = [toLowerCase a; toLowerCase b].
Proof.
  intros Ha Hwa Hb Hwb. unfold Utils.parts_of.
  destruct a as [|c r]; [contradiction|].
  assert (Hc : is_white_space c = false).
  { unfold no_white_space in Hwa. simpl in Hwa.
    apply andb_true_iff in Hwa as [Hc _]. now apply negb_true_iff in Hc. }
  rewrite (trim_between_tokens c r " " b Hc Hwb Hb).
  rewrite !toLowerCase_app.
  change (toLowerCase " " ++ toLowerCase b) with (String " " (toLowerCase b)).
  rewrite split_app, split_no_space; auto using toLowerCase_no_space, no_white_space_no_space.
Qed.

Lemma parts_of_two_spaces a b :
  a <> "" -> no_white_space a = true ->
  b <> "" -> no_white_space b = true ->
  Utils.parts_of (a ++ "  " ++ b) = [toLowerCase a; ""; toLowerCase b].
Proof.
  intros Ha Hwa Hb Hwb. unfold Utils.parts_of.
  destruct a as [|c r]; [contradiction|].
  assert (Hc : is_white_space c = false).
  { unfold no_white_space in Hwa. simpl in Hwa.
    apply andb_true_iff in Hwa as [Hc _]. now apply negb_true_iff in Hc. }
  rewrite (trim_between_tokens c r "  " b Hc Hwb Hb).
  rewrite !toLowerCase_app.
  change (toLowerCase "  " ++ toLowerCase b)
    with (String " " (String " " (toLowerCase b))).
  rewrite split_app by auto using toLowerCase_no_space, no_white_space_no_space.
  change (String " " (toLowerCase b)) with ("" ++ String " " (toLowerCase b)).
  rewrite split_app by reflexivity.
  rewrite split_no_space; auto using toLowerCase_no_space, no_white_space_no_space.
Qed.

Lemma parts_of_tab a b :
  a <> "" -> no_white_space a = true ->
  b <> "" -> no_white_space b = true ->
  Utils.parts_of (a ++ tab ++ b) = [toLowerCase (a ++ tab ++ b)].
Proof.
  intros Ha Hwa Hb Hwb. unfold Utils.parts_of.
  destruct a as [|c r]; [contradiction|].
  assert (Hc : is_white_space c = false).
  { unfold no_white_space in Hwa. simpl in Hwa.
    apply andb_true_iff in Hwa as [Hc _]. now apply negb_true_iff in Hc. }
  rewrite (trim_between_tokens c r tab b Hc Hwb Hb).
  apply split_no_space, toLowerCase_no_space.
  unfold no_space. rewrite !string_forall_app.
  apply no_white_space_no_space in Hwa, Hwb. unfold no_space in Hwa, Hwb.
  now rewrite Hwa, Hwb.
Qed.

Lemma concat_cons2 sep a b l :
  String.concat sep (a :: b :: l) = a ++ sep ++ String.concat sep (b :: l).
Proof. reflexivity. Qed.

Lemma concat_split s : String.concat " " (split " " s) = s.
Proof.
  induction s as [|c r IH]; [reflexivity|].
  cbn [split]. pose proof (split_not_nil r) as Hn.
  destruct (Ascii.eqb_spec c " ") as [->|Hc].
  - destruct (split " " r) as [|part parts]; [contradiction|].
    rewrite concat_cons2, IH. reflexivity.
  - destruct (split " " r) as [|part parts]; [contradiction|].
    destruct parts as [|part' parts'].
    + simpl in *. now rewrite IH.
    + rewrite concat_cons2 in *. rewrite <- IH. reflexivity.
Qed.

Lemma split_parts_no_space s : Forall (fun part => no_space part = true) (split " " s).
Proof.
  induction s as [|c r IH]; cbn [split].
  - repeat constructor.
  - destruct (Ascii.eqb c " ") eqn:Hc.
    + constructor; [reflexivity | exact IH].
    + destruct (split " " r) as [|part parts].
      * repeat constructor. unfold no_space. simpl. now rewrite Hc.
      * inversion IH; subst. constructor; [|assumption].
        unfold no_space in *. simpl. now rewrite Hc.
Qed.

Lemma parseAgeToWeeks_numeral n unit :
  no_white_space unit = true -> unit <> "" ->
  Utils.parseAgeToWeeks (VString (decimal n ++ " " ++ unit))
  = if includes (toLowerCase unit) "week" then Z.of_nat n
    else if includes (toLowerCase unit) "month" then Z.of_nat n * 4
    else 0.
Proof.
  intros Hw Hne.
  rewrite parseAgeToWeeks_parts, parts_of_pair;
    auto using decimal_not_empty, all_digits_no_white_space, all_digits_decimal.
  rewrite (toLowerCase_digits _ (all_digits_decimal n)), parseInt_decimal.
  reflexivity.
Qed.

(** C3: a numeral [N], a space and a unit whose lower-case form contains
    "week" parse to [N]; with a unit of months (one that contains "month"
    and is not taken for weeks) they parse to [4 * N]; a missing value, a
    value that is no string, the empty string, fewer than two tokens, a
    first token that is not numeric and a unit that names neither weeks nor
    months all give 0.  The numeral is read exactly for [N] up to
    [MAX_SAFE_INTEGER]. *)
Theorem C3_parseAgeToWeeks :
  (forall (n : nat) (unit : string),
      Z.of_nat n <= MAX_SAFE_INTEGER ->
      no_white_space unit = true ->
      includes (toLowerCase unit) "week" = true ->
      Utils.parseAgeToWeeks (VString (decimal n ++ " " ++ unit)) = Z.of_nat n)
  /\ (forall (n : nat) (unit : string),
      Z.of_nat n <= MAX_SAFE_INTEGER ->
      no_white_space unit = true ->
      includes (toLowerCase unit) "month" = true ->
      includes (toLowerCase unit) "week" = false ->
      Utils.parseAgeToWeeks (VString (decimal n ++ " " ++ unit)) = 4 * Z.of_nat n)
  /\ Utils.parseAgeToWeeks VUndefined = 0
  /\ Utils.parseAgeToWeeks VNull = 0
  /\ (forall v, is_string v = false -> Utils.parseAgeToWeeks v = 0)
  /\ Utils.parseAgeToWeeks (VString "") = 0
  /\ (forall s, (List.length (Utils.parts_of s) < 2)%nat ->
                Utils.parseAgeToWeeks (VString s) = 0)
  /\ (forall s, no_space (trim s) = true -> Utils.parseAgeToWeeks (VString s) = 0)
  /\ (forall s token rest,
         Utils.parts_of s = token :: rest -> numeric_start token = false ->
         Utils.parseAgeToWeeks (VString s) = 0)
  /\ (forall s token unit rest,
         Utils.parts_of s = token :: unit :: rest ->
         includes unit "week" = false -> includes unit "month" = false ->
         Utils.parseAgeToWeeks (VString s) = 0).
Proof.
  split.
  { intros n unit _ Hw Hweek.
    assert (Hne : unit <> "").
    { intros ->. discriminate Hweek. }
    now rewrite (parseAgeToWeeks_numeral n unit Hw Hne), Hweek. }
  split.
  { intros n unit _ Hw Hmonth Hweek.
    assert (Hne : unit <> "").
    { intros ->. discriminate Hmonth. }
    rewrite (parseAgeToWeeks_numeral n unit Hw Hne), Hweek, Hmonth. lia. }
  split; [reflexivity|]. split; [reflexivity|].
  split.
  { intros v Hv. unfold Utils.parseAgeToWeeks. rewrite Hv.
    now rewrite orb_true_r. }
  split; [reflexivity|].
  split.
  { intros s Hlen. rewrite parseAgeToWeeks_parts.
    destruct (Utils.parts_of s) as [|token [|unit rest]]; try reflexivity.
    simpl in Hlen. lia. }
  split.
  { intros s Hs. rewrite parseAgeToWeeks_parts. unfold Utils.parts_of.
    now rewrite (split_no_space _ (toLowerCase_no_space _ Hs)). }
  split.
  { intros s token rest Hparts Hnum. rewrite parseAgeToWeeks_parts, Hparts.
    rewrite (parseInt_not_numeric _ Hnum). now destruct rest. }
  intros s token unit rest Hparts Hweek Hmonth.
  rewrite parseAgeToWeeks_parts, Hparts, Hweek, Hmonth.
  now destruct (parseInt token).
Qed.

(** One input for each case of the age parser. *)
Lemma C3_parseAgeToWeeks_witness :
  Utils.parseAgeToWeeks (VString "11 Weeks") = 11
  /\ Utils.parseAgeToWeeks (VString "3 months") = 12
  /\ Utils.parseAgeToWeeks (VNumber 11) = 0
  /\ Utils.parseAgeToWeeks (VString "eleven") = 0
  /\ Utils.parseAgeToWeeks (VString " 11weeks ") = 0
  /\ Utils.parseAgeToWeeks (VString "eleven weeks") = 0
  /\ Utils.parseAgeToWeeks (VString "2 years") = 0.
Proof.
  destruct C3_parseAgeToWeeks
    as (Hweek & Hmonth & _ & _ & Hother & _ & Hshort & Hone & Hnum & Hunit).
  split; [|split; [|split; [|split; [|split; [|split]]]]].
  - apply (Hweek 11%nat "Weeks"); [now vm_compute | reflexivity | reflexivity].
  - apply (Hmonth 3%nat "months");
      [now vm_compute | reflexivity | reflexivity | reflexivity].
  - apply Hother. reflexivity.
  - apply Hshort. vm_compute. lia.
  - apply Hone. reflexivity.
  - apply (Hnum _ "eleven" ["weeks"]); reflexivity.
  - apply (Hunit _ "2" "years" []); reflexivity.
Defined.

(** C4, as the code has it: the trimmed, lower-cased input is cut at every
    single space character, so the parts joined by one space give the input
    back and no part holds a space; a first token that begins with decimal
    digits, with no [0x] prefix, is read as the number its leading digits
    denote, whatever follows them, so "12.5" and "12wk" give 12; two tokens
    with two spaces or a TAB between them do not parse as the tokens with
    one space do: they give 0. *)
Theorem C4_tokens_and_leading_integer :
  (forall s,
      String.concat " " (Utils.parts_of s) = toLowerCase (trim s)
      /\ Forall (fun part => no_space part = true) (Utils.parts_of s))
  /\ (forall digits rest,
      digits <> "" -> all_digits digits = true ->
      numeral_value digits <= MAX_SAFE_INTEGER ->
      starts_with_digit rest = false ->
      has_hex_prefix (digits ++ rest) = false ->
      parseInt (digits ++ rest) = Some (numeral_value digits))
  /\ Utils.parseAgeToWeeks (VString "12.5 weeks") = 12
  /\ Utils.parseAgeToWeeks (VString "12wk weeks") = 12
  /\ (forall a b,
      a <> "" -> no_white_space a = true ->
      b <> "" -> no_white_space b = true ->
      Utils.parseAgeToWeeks (VString (a ++ "  " ++ b)) = 0
      /\ Utils.parseAgeToWeeks (VString (a ++ tab ++ b)) = 0).
Proof.
  split.
  { intros s. unfold Utils.parts_of. split.
    - apply concat_split.
    - apply split_parts_no_space. }
  split.
  { intros digits rest Hne Hd _ Hrest Hhex.
    now apply parseInt_leading_digits. }
  split; [reflexivity|]. split; [reflexivity|].
  intros a b Ha Hwa Hb Hwb. split.
  - rewrite parseAgeToWeeks_parts, (parts_of_two_spaces a b Ha Hwa Hb Hwb).
    now destruct (parseInt (toLowerCase a)).
  - now rewrite parseAgeToWeeks_parts, (parts_of_tab a b Ha Hwa Hb Hwb).
Qed.

(** Leading digits of "12.5" and "12wk"; two spaces and a TAB between
    "12" and "weeks". *)
Lemma C4_tokens_and_leading_integer_witness :
  parseInt "12.5" = Some 12
  /\ parseInt "12wk" = Some 12
  /\ Utils.parseAgeToWeeks (VString "12  weeks") = 0
  /\ Utils.parseAgeToWeeks (VString (String "1" (String "2" (tab ++ "weeks")))) = 0.
Proof.
  destruct C4_tokens_and_leading_integer as (_ & Hint & _ & _ & Hsep).
  split; [|split].
  - apply (Hint "12" ".5"); try reflexivity; [discriminate | now vm_compute].
  - apply (Hint "12" "wk"); try reflexivity; [discriminate | now vm_compute].
  - apply (Hsep "12" "weeks"); try reflexivity; discriminate.
Defined.

(** C4 fails as stated: "12" and "weeks" with two spaces between them, or
    with a TAB, parse to 0, and with a single space to 12. *)
Lemma C4_whitespace_counterexample :
  ~ (forall a b separator,
        a <> "" -> no_white_space a = true ->
        b <> "" -> no_white_space b = true ->
        separator <> "" -> all_white_space separator = true ->
        Utils.parseAgeToWeeks (VString (a ++ separator ++ b))
        = Utils.parseAgeToWeeks (VString (a ++ " " ++ b))).
Proof.
  intros H.
  assert (H12 : Utils.parseAgeToWeeks (VString ("12" ++ "  " ++ "weeks"))
                = Utils.parseAgeToWeeks (VString ("12" ++ " " ++ "weeks")))
    by (apply H; try reflexivity; discriminate).
  vm_compute in H12. discriminate H12.
Qed.

(** ** The filter engine *)

Lemma Selection_filter {A : Type} (f : A -> bool) (P : A -> Prop) :
  (forall x, f x = true <-> P x) ->
  forall l, Selection P l (filter f l).
Proof.
  intros Hf l; induction l as [|x l IH]; simpl.
  - constructor.
  - destruct (f x) eqn:E.
    + apply Selection_keep; [now apply Hf | exact IH].
    + apply Selection_drop; [|exact IH].
      intros HP; apply Hf in HP; congruence.
Qed.

Lemma Selection_unique {A : Type} (P : A -> Prop) (l l1 l2 : list A) :
  Selection P l l1 -> Selection P l l2 -> l1 = l2.
Proof.
  intros H1; revert l2; induction H1; intros l2 H2; inversion H2; subst;
    try reflexivity; try contradiction.
  - f_equal; auto.
  - auto.
Qed.

Lemma filter_idempotent {A : Type} (f : A -> bool) (l : list A) :
  filter f (filter f l) = filter f l.
Proof.
  induction l as [|x l IH]; simpl; [reflexivity|].
  destruct (f x) eqn:E; simpl; [rewrite E, IH|]; auto.
Qed.

Lemma matchesBreedFilter_spec puppy breedFilter :
  FilterManager.matchesBreedFilter puppy breedFilter = true
  <-> breedFilter = "all" \/ breed puppy = breedFilter.
Proof.
  unfold FilterManager.matchesBreedFilter.
  rewrite orb_true_iff, !String.eqb_eq; tauto.
Qed.

Lemma matchesGenderFilter_spec puppy genderFilter :
  FilterManager.matchesGenderFilter puppy genderFilter = true
  <-> genderFilter = "all" \/ gender puppy = genderFilter.
Proof.
  unfold FilterManager.matchesGenderFilter.
  rewrite orb_true_iff, !String.eqb_eq; tauto.
Qed.

(** C2: for every catalog and every criteria read off the page, the filter
    engine returns exactly the records that satisfy the breed, the age and
    the gender predicate together, in their original relative order; the
    breed and gender predicates are the wildcard ["all"] or equality of
    strings, character by character. *)
Theorem C2_applyFilters_selection (document : Document) (catalog : list Puppy) :
  let filters := FilterManager.getActiveFilters document in
  Selection
    (fun puppy =>
       (FilterManager.breed_filter filters = "all"
        \/ breed puppy = FilterManager.breed_filter filters)
       /\ FilterManager.matchesAgeFilter puppy (FilterManager.age_filter filters) = true
       /\ (FilterManager.gender_filter filters = "all"
           \/ gender puppy = FilterManager.gender_filter filters))
    catalog
    (FilterManager.applyFilters document catalog).
Proof.
  intros filters. unfold FilterManager.applyFilters. fold filters.
  apply Selection_filter. intros puppy.
  rewrite !andb_true_iff, matchesBreedFilter_spec, matchesGenderFilter_spec.
  tauto.
Qed.

(** C8: applying the filter engine to its own output, with the same
    criteria, returns that output unchanged. *)
Theorem C8_applyFilters_idempotent (document : Document) (catalog : list Puppy) :
  FilterManager.applyFilters document (FilterManager.applyFilters document catalog)
  = FilterManager.applyFilters document catalog.
Proof.
  unfold FilterManager.applyFilters. apply filter_idempotent.
Qed.

(** ** Age buckets *)

Lemma matchesAgeFilter_all puppy :
  FilterManager.matchesAgeFilter puppy "all" = true.
Proof. reflexivity. Qed.

Lemma matchesAgeFilter_8_12 puppy :
  FilterManager.matchesAgeFilter puppy "8-12 weeks" = true
  <-> 8 <= Utils.parseAgeToWeeks (VString (age puppy)) <= 12.
Proof.
  unfold FilterManager.matchesAgeFilter.
  generalize (Utils.parseAgeToWeeks (VString (age puppy))); intros w.
  cbn. rewrite andb_true_iff. lia.
Qed.

Lemma matchesAgeFilter_3_6 puppy :
  FilterManager.matchesAgeFilter puppy "3-6 months" = true
  <-> 12 <= Utils.parseAgeToWeeks (VString (age puppy)) <= 24.
Proof.
  unfold FilterManager.matchesAgeFilter.
  generalize (Utils.parseAgeToWeeks (VString (age puppy))); intros w.
  cbn. rewrite andb_true_iff. lia.
Qed.

(** C10: the bucket ['8-12 weeks'] is the closed interval [8, 12] of weeks
    and ['3-6 months'] is [12, 24]; a record matches both buckets exactly
    when its age parses to 12 weeks, as "12 weeks" and "3 months" do. *)
Theorem C10_age_buckets_overlap :
  (forall puppy,
      FilterManager.matchesAgeFilter puppy "8-12 weeks" = true
      <-> 8 <= Utils.parseAgeToWeeks (VString (age puppy)) <= 12)
  /\ (forall puppy,
      FilterManager.matchesAgeFilter puppy "3-6 months" = true
      <-> 12 <= Utils.parseAgeToWeeks (VString (age puppy)) <= 24)
  /\ (forall puppy,
      Utils.parseAgeToWeeks (VString (age puppy)) = 12
      <-> FilterManager.matchesAgeFilter puppy "8-12 weeks" = true
          /\ FilterManager.matchesAgeFilter puppy "3-6 months" = true)
  /\ Utils.parseAgeToWeeks (VString "12 weeks") = 12
  /\ Utils.parseAgeToWeeks (VString "3 months") = 12.
Proof.
  split; [exact matchesAgeFilter_8_12|].
  split; [exact matchesAgeFilter_3_6|].
  split; [|split; reflexivity].
  intros puppy. rewrite matchesAgeFilter_8_12, matchesAgeFilter_3_6. lia.
Qed.

(** A record aged "3 months" falls into both buckets. *)
Lemma C10_age_buckets_overlap_witness :
  FilterManager.matchesAgeFilter (puppy_aged "3 months") "8-12 weeks" = true
  /\ FilterManager.matchesAgeFilter (puppy_aged "3 months") "3-6 months" = true.
Proof.
  apply (proj1 (proj2 (proj2 C10_age_buckets_overlap)) (puppy_aged "3 months")).
  reflexivity.
Defined.

(** ** Unrecognized age buckets *)

(** A bucket name that is neither configured nor inherited matches every
    record. *)
Lemma matchesAgeFilter_unknown puppy ageFilter :
  assoc ageFilter APP_CONFIG.ageRanges = None ->
  inherited ageFilter = false ->
  FilterManager.matchesAgeFilter puppy ageFilter = true.
Proof.
  intros Hown Hinh. unfold FilterManager.matchesAgeFilter.
  destruct (ageFilter =? "all")%string; [reflexivity|].
  rewrite (get_property_not_inherited _ _ Hinh), Hown. reflexivity.
Qed.

Lemma getActiveFilters_page_with breedValue ageValue genderValue :
  FilterManager.getActiveFilters (page_with breedValue ageValue genderValue)
  = {| FilterManager.breed_filter := breedValue;
       FilterManager.age_filter := ageValue;
       FilterManager.gender_filter := genderValue |}.
Proof. reflexivity. Qed.

Lemma applyFilters_unknown_bucket breedValue ageValue genderValue catalog :
  assoc ageValue APP_CONFIG.ageRanges = None ->
  inherited ageValue = false ->
  FilterManager.applyFilters (page_with breedValue ageValue genderValue) catalog
  = FilterManager.applyFilters (page_with breedValue "all" genderValue) catalog.
Proof.
  intros Hown Hinh. unfold FilterManager.applyFilters.
  rewrite !getActiveFilters_page_with.
  unfold FilterManager.breed_filter, FilterManager.age_filter,
    FilterManager.gender_filter.
  apply filter_ext. intros puppy.
  now rewrite (matchesAgeFilter_unknown _ _ Hown Hinh), matchesAgeFilter_all.
Qed.

(** The bucket "1-2 years" is not configured: it filters as "all" does. *)
Lemma applyFilters_unknown_bucket_witness :
  FilterManager.applyFilters (page_with "Cane Corso" "1-2 years" "Female") puppies
  = FilterManager.applyFilters (page_with "Cane Corso" "all" "Female") puppies.
Proof.
  apply applyFilters_unknown_bucket; reflexivity.
Defined.

(** C7, at the bucket name ["constructor"]: the name is no key of the
    age-range table, so the claim asks for the result of the wildcard, the
    whole catalog here; the lookup reaches [Object.prototype], the range is
    the function [Object], whose [min] and [max] are undefined, and no record
    matches. *)
Theorem C7_applyFilters_at_inherited_bucket :
  assoc "constructor" APP_CONFIG.ageRanges = None
  /\ FilterManager.applyFilters (page_with "all" "all" "all") puppies = puppies
  /\ FilterManager.applyFilters (page_with "all" "constructor" "all") puppies = []
  /\ forall puppy, FilterManager.matchesAgeFilter puppy "constructor" = false.
Proof.
  repeat split; try (vm_compute; reflexivity).
Qed.

(** ** Slices *)

Section Slices.

Context {A : Type}.
Implicit Types (l items : list A).

Lemma firstn_plus (a b : nat) l :
  firstn (a + b) l = (firstn a l ++ firstn b (skipn a l))%list.
Proof.
  revert l; induction a as [|a IH]; intros l; [reflexivity|].
  destruct l as [|x l]; simpl.
  - now rewrite firstn_nil.
  - now rewrite IH.
Qed.

(** The elements of a slice, index by index. *)
Lemma nth_error_slice l (start end_ : Z) (i : nat) :
  let len := Z.of_nat (List.length l) in
  let k := if start <? 0 then Z.max (len + start) 0 else Z.min start len in
  let final := if end_ <? 0 then Z.max (len + end_) 0 else Z.min end_ len in
  nth_error (slice l start end_) i
  = if k + Z.of_nat i <? final then nth_error l (Z.to_nat k + i) else None.
Proof.
  intros len k final. unfold slice. fold len. fold k. fold final.
  rewrite nth_error_firstn, nth_error_skipn.
  assert (0 <= k) by (unfold k, len; destruct (Z.ltb_spec start 0); lia).
  destruct (Nat.ltb_spec i (Z.to_nat (final - k)));
    destruct (Z.ltb_spec (k + Z.of_nat i) final); try reflexivity; lia.
Qed.

Lemma slice_nonneg l (start end_ : Z) :
  0 <= start <= end_ ->
  slice l start end_
  = firstn (Z.to_nat (end_ - start)) (skipn (Z.to_nat start) l).
Proof.
  intros H. unfold slice.
  destruct (Z.ltb_spec start 0); [lia|].
  destruct (Z.ltb_spec end_ 0); [lia|].
  set (len := Z.of_nat (List.length l)).
  destruct (Z.le_gt_cases len start) as [Hs|Hs].
  - rewrite (skipn_all2 (n := Z.to_nat start)) by lia.
    rewrite firstn_nil.
    replace (Z.min end_ len - Z.min start len) with 0 by lia. reflexivity.
  - rewrite (Z.min_l start len) by lia.
    destruct (Z.le_gt_cases end_ len) as [He|He].
    + now rewrite (Z.min_l end_ len) by lia.
    + rewrite (Z.min_r end_ len) by lia.
      rewrite !firstn_all2; try reflexivity; rewrite length_skipn; lia.
Qed.

End Slices.

(** ** The paginator *)

Lemma ceil_quotient_bounds (a b : Z) :
  0 < b ->
  a <= b * ceil_quotient a b < a + b.
Proof.
  intros Hb. unfold ceil_quotient.
  pose proof (Z.div_mod a b ltac:(lia)) as Hdm.
  pose proof (Z.mod_pos_bound a b Hb) as Hm.
  destruct (Z.eqb_spec (a mod b) 0); lia.
Qed.

Section Paginator.

Context {A : Type}.
Variable this : PaginationManager.t.
Implicit Types (items : list A) (page : Z).

Local Abbreviation per_page := (Z.to_nat APP_CONFIG.pagination.itemsPerPage).

Lemma getItemsForPage_from_one items page :
  1 <= page ->
  PaginationManager.getItemsForPage this items (Some page)
  = firstn per_page (skipn (per_page * Z.to_nat (page - 1)) items).
Proof.
  intros Hp. unfold PaginationManager.getItemsForPage,
    APP_CONFIG.pagination.itemsPerPage.
  rewrite slice_nonneg by lia.
  f_equal; [f_equal; lia|f_equal; lia].
Qed.

Lemma count_up_pages_concat items (n j : nat) :
  List.concat (map (fun page => PaginationManager.getItemsForPage this items (Some page))
              (count_up (Z.of_nat j + 1) n))
  = firstn (per_page * n) (skipn (per_page * j) items).
Proof.
  revert j; induction n as [|n IH]; intros j.
  - now rewrite Nat.mul_0_r.
  - simpl count_up. simpl map. simpl List.concat.
    rewrite getItemsForPage_from_one by lia.
    replace (Z.of_nat j + 1 + 1) with (Z.of_nat (S j) + 1) by lia.
    rewrite IH.
    replace (per_page * S n)%nat with (per_page + per_page * n)%nat by lia.
    rewrite firstn_plus, skipn_skipn.
    replace (Z.to_nat (Z.of_nat j + 1 - 1)) with j by lia.
    replace (per_page + per_page * j)%nat with (per_page * S j)%nat by lia.
    reflexivity.
Qed.

Lemma pageCount_bounds items :
  let len := Z.of_nat (List.length items) in
  len <= 10 * PaginationManager.pageCount items < len + 10.
Proof.
  intros len. unfold PaginationManager.pageCount.
  apply (ceil_quotient_bounds len 10). lia.
Qed.

Lemma pages_concat items :
  List.concat (map (fun page => PaginationManager.getItemsForPage this items (Some page))
              (for_range 1 (PaginationManager.pageCount items)))
  = items.
Proof.
  unfold for_range.
  change 1 with (Z.of_nat 0 + 1) at 1.
  rewrite count_up_pages_concat, Nat.mul_0_r, skipn_0.
  apply firstn_all2.
  pose proof (pageCount_bounds items) as H. cbv zeta in H.
  unfold APP_CONFIG.pagination.itemsPerPage. lia.
Qed.

Lemma last_page_size items :
  items <> [] ->
  1 <= Z.of_nat (List.length
         (PaginationManager.getItemsForPage this items
            (Some (PaginationManager.pageCount items))))
    <= APP_CONFIG.pagination.itemsPerPage.
Proof.
  intros Hne.
  assert (0 < Z.of_nat (List.length items))
    by (destruct items; [congruence | simpl; lia]).
  pose proof (pageCount_bounds items) as H1. cbv zeta in H1.
  rewrite getItemsForPage_from_one by lia.
  rewrite length_firstn, length_skipn.
  unfold APP_CONFIG.pagination.itemsPerPage. lia.
Qed.

End Paginator.

(** C5: the pages 1 to [pageCount] of a list, one after the other, are the
    list again, so their sizes add up to its length; the last page of a
    non-empty list holds between 1 and [itemsPerPage] items; twelve items
    make two pages, the first ten items and the two that remain. *)
Theorem C5_pages_partition {A : Type} (this : PaginationManager.t) (items : list A) :
  let page_items page := PaginationManager.getItemsForPage this items (Some page) in
  let pages := for_range 1 (PaginationManager.pageCount items) in
  List.concat (map page_items pages) = items
  /\ list_sum (map (fun page => List.length (page_items page)) pages)
     = List.length items
  /\ (0 < Z.of_nat (List.length items) ->
      1 <= Z.of_nat (List.length (page_items (PaginationManager.pageCount items)))
        <= APP_CONFIG.pagination.itemsPerPage)
  /\ (List.length items = 12%nat ->
      PaginationManager.pageCount items = 2
      /\ page_items 1 = firstn 10 items
      /\ page_items 2 = skipn 10 items).
Proof.
  intros page_items pages.
  assert (Hcat : List.concat (map page_items pages) = items) by apply pages_concat.
  split; [exact Hcat|]. split; [|split].
  - transitivity (List.length (List.concat (map page_items pages))).
    + now rewrite length_concat, map_map.
    + now rewrite Hcat.
  - intros Hlen. apply last_page_size. intros ->. simpl in Hlen. lia.
  - intros H12.
    assert (Hc : PaginationManager.pageCount items = 2)
      by (unfold PaginationManager.pageCount; rewrite H12; reflexivity).
    split; [exact Hc|]. unfold page_items.
    rewrite !getItemsForPage_from_one by lia.
    change (Z.to_nat APP_CONFIG.pagination.itemsPerPage) with 10%nat.
    change (Z.to_nat (1 - 1)) with 0%nat. change (Z.to_nat (2 - 1)) with 1%nat.
    rewrite Nat.mul_0_r, Nat.mul_1_r, skipn_0.
    split; [reflexivity|].
    apply firstn_all2. rewrite length_skipn. lia.
Qed.

(** The twelve names of the catalog: two pages, of ten and of two. *)
Lemma C5_pages_partition_witness :
  let names := map name puppies in
  let page_items page :=
    PaginationManager.getItemsForPage PaginationManager.initial names (Some page) in
  PaginationManager.pageCount names = 2
  /\ page_items 1 = firstn 10 names
  /\ page_items 2 = ["Gaston"; "Rocky"]
  /\ 1 <= Z.of_nat (List.length (page_items (PaginationManager.pageCount names))) <= 10.
Proof.
  intros names page_items.
  destruct (C5_pages_partition PaginationManager.initial names) as (_ & _ & Hlast & H12).
  destruct (H12 eq_refl) as (Hc & H1 & H2).
  repeat split; try assumption; apply Hlast; vm_compute; reflexivity.
Defined.

(** C6, as the code has it: from page 1 on, [getItemsForPage] returns the
    items at the indices from [(page-1)*itemsPerPage] up to, and without,
    [page*itemsPerPage], as far as they exist; a page after the last one,
    and page 0, give the empty list; a negative page is not refused, its
    bounds count back from the end of the list. *)
Theorem C6_getItemsForPage_slice {A : Type} (this : PaginationManager.t)
    (items : list A) (page : Z) :
  let per_page := APP_CONFIG.pagination.itemsPerPage in
  let len := Z.of_nat (List.length items) in
  let result := PaginationManager.getItemsForPage this items (Some page) in
  (1 <= page ->
   forall i : nat,
     nth_error result i
     = if Z.of_nat i <? per_page
       then nth_error items (Z.to_nat ((page - 1) * per_page) + i)
       else None)
  /\ (PaginationManager.pageCount items < page \/ page = 0 -> result = [])
  /\ (page < 0 ->
      let first := Z.max 0 (len + (page - 1) * per_page) in
      let last := Z.max 0 (len + page * per_page) in
      forall i : nat,
        nth_error result i
        = if first + Z.of_nat i <? last
          then nth_error items (Z.to_nat first + i)
          else None).
Proof.
  intros per_page len result. split; [|split].
  - intros Hp i. unfold result.
    rewrite (getItemsForPage_from_one this items page Hp).
    rewrite nth_error_firstn, nth_error_skipn.
    unfold per_page, APP_CONFIG.pagination.itemsPerPage.
    destruct (Nat.ltb_spec i (Z.to_nat 10)); destruct (Z.ltb_spec (Z.of_nat i) 10);
      try reflexivity; try lia.
    f_equal. lia.
  - intros [Hp | ->].
    + pose proof (pageCount_bounds items) as Hb. cbv zeta in Hb.
      unfold result. rewrite getItemsForPage_from_one by lia.
      rewrite skipn_all2; [apply firstn_nil|].
      unfold APP_CONFIG.pagination.itemsPerPage. lia.
    + unfold result, PaginationManager.getItemsForPage, slice. simpl.
      replace (Z.to_nat _) with 0%nat by lia. reflexivity.
  - intros Hp first last i.
    unfold result, PaginationManager.getItemsForPage.
    rewrite nth_error_slice. fold len. fold per_page.
    assert (Hpp : per_page = 10) by reflexivity.
    destruct (Z.ltb_spec ((page - 1) * per_page) 0); [|lia].
    destruct (Z.ltb_spec ((page - 1) * per_page + per_page) 0); [|lia].
    unfold first, last.
    replace (Z.max (len + (page - 1) * per_page) 0)
      with (Z.max 0 (len + (page - 1) * per_page)) by lia.
    replace (Z.max (len + ((page - 1) * per_page + per_page)) 0)
      with (Z.max 0 (len + page * per_page)) by lia.
    reflexivity.
Qed.

(** Pages 2, 3 and -1 of the twelve names of the catalog. *)
Lemma C6_getItemsForPage_slice_witness :
  let names := map name puppies in
  nth_error (PaginationManager.getItemsForPage PaginationManager.initial names (Some 2)) 1
  = Some "Rocky"
  /\ PaginationManager.getItemsForPage PaginationManager.initial names (Some 3) = []
  /\ nth_error
       (PaginationManager.getItemsForPage PaginationManager.initial names (Some (-1))) 1
     = Some "Kane".
Proof.
  intros names. split; [|split].
  - apply (proj1 (C6_getItemsForPage_slice PaginationManager.initial names 2)
             ltac:(lia) 1%nat).
  - apply (proj1 (proj2 (C6_getItemsForPage_slice PaginationManager.initial names 3))).
    left. vm_compute. reflexivity.
  - apply (proj2 (proj2 (C6_getItemsForPage_slice PaginationManager.initial names (-1)))
             ltac:(lia) 1%nat).
Defined.

(** C6 fails as stated: page -1 is out of range, and on the twelve records
    of the catalog it yields the first two of them, not the empty list. *)
Lemma C6_negative_page_counterexample :
  ~ (forall (items : list string) (page : Z),
        page < 1 \/ PaginationManager.pageCount items < page ->
        PaginationManager.getItemsForPage PaginationManager.initial items (Some page)
        = []).
Proof.
  intros H.
  assert (Hout : -1 < 1 \/ PaginationManager.pageCount (map name puppies) < -1)
    by (left; lia).
  specialize (H (map name puppies) (-1) Hout).
  vm_compute in H. discriminate H.
Qed.

(** ** The page window *)

Lemma length_count_up first n : List.length (count_up first n) = n.
Proof. revert first; induction n; intros; simpl; auto. Qed.

Lemma nth_error_count_up first n i :
  nth_error (count_up first n) i
  = if (i <? n)%nat then Some (first + Z.of_nat i) else None.
Proof.
  revert first i; induction n as [|n IH]; intros first [|i]; simpl; try reflexivity.
  - f_equal; lia.
  - rewrite IH. change (S i <? S n)%nat with (i <? n)%nat.
    destruct (i <? n)%nat; [f_equal; lia | reflexivity].
Qed.

Lemma In_count_up first n p :
  In p (count_up first n) <-> first <= p < first + Z.of_nat n.
Proof.
  revert first; induction n as [|n IH]; intros first; simpl.
  - lia.
  - rewrite IH. lia.
Qed.

Lemma In_for_range first last p :
  In p (for_range first last) <-> first <= p <= last.
Proof. unfold for_range. rewrite In_count_up. lia. Qed.

Lemma window_render {A : Type} (this : PaginationManager.t) (items : list A) content :
  1 < PaginationManager.pageCount items ->
  exists rendered,
    PaginationManager.render this items (Some content) = Some rendered
    /\ PaginationManager.window rendered
       = for_range (PaginationManager.startPage this)
                   (PaginationManager.endPage this items).
Proof.
  intros Hpc. unfold PaginationManager.render.
  destruct (Z.leb_spec (PaginationManager.pageCount items) 1); [lia|].
  eexists; split; [reflexivity|].
  unfold PaginationManager.window. simpl tl.
  now rewrite removelast_last, map_map, map_id.
Qed.

(** C9: when there is more than one page, the page numbers rendered
    between Previous and Next run from [max(1, currentPage - 2)] to
    [min(pageCount, start + 4)] without a gap; they are at most 5, all
    within [1, pageCount]; the current page is one of them, and it is the
    middle one of five wherever two pages exist on either side of it. *)
Theorem C9_page_window {A : Type} (this : PaginationManager.t) (items : list A)
    (content : list PaginationManager.PaginationItem) :
  1 < PaginationManager.pageCount items ->
  let current := PaginationManager.currentPage this in
  let count := PaginationManager.pageCount items in
  let first := Z.max 1 (current - 2) in
  let last := Z.min count (first + 4) in
  exists rendered,
    PaginationManager.render this items (Some content) = Some rendered
    /\ PaginationManager.window rendered = for_range first last
    /\ (forall p, In p (PaginationManager.window rendered) <-> first <= p <= last)
    /\ (forall i p, nth_error (PaginationManager.window rendered) i = Some p ->
                    p = first + Z.of_nat i)
    /\ Z.of_nat (List.length (PaginationManager.window rendered))
       <= APP_CONFIG.pagination.maxVisiblePages
    /\ (forall p, In p (PaginationManager.window rendered) -> 1 <= p <= count)
    /\ (1 <= current <= count -> In current (PaginationManager.window rendered))
    /\ (3 <= current <= count - 2 ->
        PaginationManager.window rendered
        = [current - 2; current - 1; current; current + 1; current + 2]).
Proof.
  intros Hpc current count first last.
  destruct (window_render this items content Hpc) as (rendered & Hr & Hw).
  change (PaginationManager.startPage this) with first in Hw.
  change (PaginationManager.endPage this items) with last in Hw.
  exists rendered. split; [exact Hr|]. split; [exact Hw|]. rewrite Hw.
  split; [intros p; apply In_for_range|].
  split.
  { intros i p Hn. unfold for_range in Hn. rewrite nth_error_count_up in Hn.
    destruct (_ <? _)%nat; congruence. }
  split.
  { unfold for_range. rewrite length_count_up.
    unfold APP_CONFIG.pagination.maxVisiblePages. lia. }
  split; [intros p Hp; apply In_for_range in Hp; lia|].
  split; [intros Hc; apply In_for_range; lia|].
  intros Hc. unfold for_range.
  replace first with (current - 2) by lia.
  replace (last - (current - 2) + 1) with 5 by lia.
  simpl. repeat (f_equal; try lia).
Qed.

(** The catalog on its first page: the window shows pages 1 and 2. *)
Lemma C9_page_window_witness :
  exists rendered,
    PaginationManager.render PaginationManager.initial (map name puppies) (Some [])
    = Some rendered
    /\ PaginationManager.window rendered = [1; 2].
Proof.
  destruct (C9_page_window PaginationManager.initial (map name puppies) [])
    as (rendered & Hr & Hw & _).
  - vm_compute. reflexivity.
  - exists rendered. split; [exact Hr | exact Hw].
Defined.

(** ** The price calculator *)

(** Away from the names inherited from [Object.prototype], the shipping cost
    is the surcharge of the specification. *)
Lemma getShippingCost_not_inherited deliveryOption :
  inherited deliveryOption = false ->
  OrderPage.getShippingCost deliveryOption = VNumber (surcharge deliveryOption).
Proof.
  intros H. unfold OrderPage.getShippingCost.
  rewrite (get_property_not_inherited _ _ H).
  unfold APP_CONFIG.shipping, surcharge, assoc.
  rewrite !(String.eqb_sym _ deliveryOption).
  destruct (deliveryOption =? "pickup")%string; [reflexivity|].
  destruct (deliveryOption =? "standard")%string; [reflexivity|].
  destruct (deliveryOption =? "handDelivery")%string; reflexivity.
Qed.

Lemma total_not_inherited puppy deliveryOption :
  inherited deliveryOption = false ->
  OrderPage.total puppy deliveryOption
  = VNumber (price puppy + surcharge deliveryOption).
Proof.
  intros H. unfold OrderPage.total.
  now rewrite (getShippingCost_not_inherited _ H).
Qed.

(** Hand delivery, the empty option and an unknown option. *)
Lemma total_not_inherited_witness :
  OrderPage.total (puppy_aged "12 weeks") "handDelivery" = VNumber 1550
  /\ OrderPage.total (puppy_aged "12 weeks") "" = VNumber 1200
  /\ OrderPage.total (puppy_aged "12 weeks") "courier" = VNumber 1200.
Proof.
  repeat split; apply total_not_inherited; reflexivity.
Defined.

(** C1, at the option ["constructor"]: the option is no key of the shipping
    map, so the claim asks for a surcharge of 0 and a total equal to the
    price; the lookup reaches [Object.prototype], the shipping cost is the
    function [Object], and the total is a string, for every record. *)
Theorem C1_total_at_inherited_option :
  let puppy := hd (puppy_aged "") puppies in
  assoc "constructor" APP_CONFIG.shipping = None
  /\ price puppy = 1500
  /\ OrderPage.getShippingCost "constructor" = VBuiltin (NativeFunction "Object")
  /\ OrderPage.total puppy "constructor"
     = VString "1500function Object() { [native code] }"
  /\ OrderPage.total puppy "constructor" <> VNumber (price puppy + 0)
  /\ forall selected : Puppy,
       exists text, OrderPage.total selected "constructor" = VString text.
Proof.
  cbv zeta. repeat split; try (vm_compute; reflexivity).
  - vm_compute. discriminate.
  - intros selected. eexists. reflexivity.
Qed.

(** * The rest of the program *)

(** ** Utils.debounce *)

Lemma Subsequence_refl {A : Type} (l : list A) : Subsequence l l.
Proof. induction l; constructor; auto. Qed.

Lemma Subsequence_app_tail {A : Type} (l l' : list A) x :
  Subsequence l l' -> Subsequence (l ++ [x]) (l' ++ [x]).
Proof. induction 1; simpl; constructor; auto. constructor. Qed.

Lemma Subsequence_app_l {A : Type} (l1 l2 l' : list A) :
  Subsequence (l1 ++ l2) l' -> Subsequence l1 l'.
Proof.
  revert l1 l2; induction l' as [|y l' IH]; intros l1 l2 H.
  - inversion H as [E| |]. apply eq_sym, app_eq_nil in E as [-> _]. constructor.
  - destruct l1 as [|x l1].
    + clear. apply Subsequence_skip.
      induction l' as [|z l' IHl]; constructor; auto.
    + inversion H; subst.
      * apply Subsequence_keep. eapply IH; eauto.
      * apply Subsequence_skip. eapply (IH (x :: l1)); eauto.
Qed.

Lemma Subsequence_insert {A : Type} (l before middle after : list A) :
  Subsequence l (before ++ after) ->
  Subsequence l (before ++ middle ++ after).
Proof.
  revert l; induction before as [|x before IH]; intros l; simpl.
  - intros H. induction middle as [|y middle IHm]; [exact H|].
    now apply Subsequence_skip.
  - intros H. inversion H; subst.
    + apply Subsequence_keep. auto.
    + apply Subsequence_skip. auto.
Qed.

Lemma Subsequence_length {A : Type} (l l' : list A) :
  Subsequence l l' -> (List.length l <= List.length l')%nat.
Proof. induction 1; simpl; lia. Qed.

Section DebouncedFacts.

Context {Args : Type}.
Implicit Types (this : Debounced.t Args) (events : list (Debounced.event Args)).

Lemma single_timer_executedFunction this args :
  Debounced.single_timer this ->
  Debounced.timers (Debounced.executedFunction args this)
  = [(Debounced.next_id this, args)].
Proof.
  intros [H | (id & a & H & Ht)]; unfold Debounced.executedFunction; simpl;
    rewrite H.
  - now destruct (Debounced.timeout this).
  - rewrite Ht. simpl. now rewrite Nat.eqb_refl.
Qed.

Lemma single_timer_expire this id next :
  Debounced.single_timer this ->
  Debounced.expire id this = Some next ->
  exists args,
    Debounced.timers this = [(id, args)]
    /\ Debounced.timers next = []
    /\ Debounced.invoked next = (Debounced.invoked this ++ [args])%list.
Proof.
  unfold Debounced.expire.
  intros [H | (id' & a & H & Ht)]; rewrite H; simpl; [discriminate|].
  destruct (Nat.eqb_spec id' id) as [->|Hne]; [|discriminate].
  intros E; injection E as <-. exists a. simpl.
  rewrite ?Nat.eqb_refl. simpl. split; [reflexivity|]. split; [|reflexivity].
  now destruct (Debounced.timeout this).
Qed.

Lemma single_timer_step this e next :
  Debounced.single_timer this ->
  Debounced.step this e = Some next ->
  Debounced.single_timer next.
Proof.
  intros Hs. destruct e as [args | id]; simpl.
  - intros E; injection E as <-. right.
    exists (Debounced.next_id this), args.
    split; [now apply single_timer_executedFunction | reflexivity].
  - intros E. destruct (single_timer_expire _ _ _ Hs E) as (a & _ & Hn & _).
    now left.
Qed.

Lemma run_single_timer events this last :
  Debounced.single_timer this ->
  Debounced.run events this = Some last ->
  Debounced.single_timer last.
Proof.
  revert this; induction events as [|e events IH]; intros this Hs; simpl.
  - intros E; injection E as <-. exact Hs.
  - destruct (Debounced.step this e) as [next|] eqn:E; [|discriminate].
    apply IH. eapply single_timer_step; eauto.
Qed.


Lemma run_app events1 events2 this :
  Debounced.run (events1 ++ events2) this
  = match Debounced.run events1 this with
    | Some middle => Debounced.run events2 middle
    | None => None
    end.
Proof.
  revert this; induction events1 as [|e events1 IH]; intros this; simpl;
    [reflexivity|].
  destruct (Debounced.step this e); [apply IH | reflexivity].
Qed.

Lemma run_calls (burst : list Args) this :
  exists last,
    Debounced.run (map Debounced.Call burst) this = Some last
    /\ Debounced.invoked last = Debounced.invoked this
    /\ Debounced.next_id last = (Debounced.next_id this + List.length burst)%nat
    /\ (burst = [] -> last = this).
Proof.
  revert this; induction burst as [|args burst IH]; intros this.
  - exists this. simpl. repeat split; auto.
  - destruct (IH (Debounced.executedFunction args this)) as (last & Hr & Hi & Hn & _).
    exists last. simpl. rewrite Hr, Hi, Hn. simpl.
    repeat split; try lia. discriminate.
Qed.

(** A burst of calls and then the expiry of the timer the last of them
    set: [func] is called once, with the arguments of the last call. *)
Theorem debounce_burst (burst : list Args) (args : Args) this :
  Debounced.single_timer this ->
  let id := (Debounced.next_id this + List.length burst)%nat in
  exists last,
    Debounced.run
      (map Debounced.Call (burst ++ [args]) ++ [Debounced.Expire id])%list this
    = Some last
    /\ Debounced.invoked last = (Debounced.invoked this ++ [args])%list
    /\ Debounced.timers last = [].
Proof.
  intros Hs id.
  destruct (run_calls burst this) as (middle & Hr & Hi & Hn & _).
  assert (Hm : Debounced.single_timer middle)
    by (eapply run_single_timer; eauto).
  rewrite map_app, <- app_assoc, run_app, Hr. simpl.
  pose proof (single_timer_executedFunction middle args Hm) as Ht.
  unfold Debounced.expire. rewrite Ht. subst id. simpl.
  rewrite Hn, Nat.eqb_refl. simpl.
  eexists. split; [reflexivity|]. simpl. rewrite Hi.
  split; reflexivity.
Qed.

Lemma pending_subsequence events this last :
  Debounced.single_timer this ->
  Debounced.run events this = Some last ->
  Subsequence
    (Debounced.invoked last ++ map snd (Debounced.timers last))
    (Debounced.invoked this ++ map snd (Debounced.timers this)
       ++ Debounced.calls events).
Proof.
  revert this; induction events as [|e events IH]; intros this Hs; simpl.
  - intros E; injection E as <-. rewrite app_nil_r. apply Subsequence_refl.
  - destruct (Debounced.step this e) as [next|] eqn:E; [|discriminate].
    intros Hr. pose proof (single_timer_step _ _ _ Hs E) as Hn.
    specialize (IH next Hn Hr). destruct e as [args | id]; simpl in E.
    + injection E as <-.
      rewrite (single_timer_executedFunction this args Hs) in IH. simpl in IH.
      apply Subsequence_insert. exact IH.
    + destruct (single_timer_expire _ _ _ Hs E) as (a & Ht & Hnil & Hi).
      rewrite Hnil, Hi in IH. rewrite Ht. simpl in *.
      now rewrite <- app_assoc in IH.
Qed.

(** The calls of [func] are some of the calls of the debounced function,
    with their arguments, in the same order: nothing is called twice, and
    nothing that was not asked for. *)
Theorem debounce_invocations events last :
  Debounced.run events Debounced.initial = Some last ->
  Subsequence (Debounced.invoked last) (Debounced.calls events)
  /\ (List.length (Debounced.invoked last)
      <= List.length (Debounced.calls events))%nat.
Proof.
  intros Hr.
  assert (Hs : Subsequence (Debounced.invoked last) (Debounced.calls events)).
  { eapply Subsequence_app_l.
    apply (pending_subsequence events Debounced.initial last);
      [left; reflexivity | exact Hr]. }
  split; [exact Hs | now apply Subsequence_length].
Qed.

End DebouncedFacts.

(** Three calls, then the timer of the third expires. *)
Lemma debounce_burst_witness :
  exists last,
    Debounced.run
      [Debounced.Call "a"; Debounced.Call "b"; Debounced.Call "c"; Debounced.Expire 3%nat]
      Debounced.initial
    = Some last
    /\ Debounced.invoked last = ["c"].
Proof.
  destruct (debounce_burst ["a"; "b"] "c" Debounced.initial) as (last & Hr & Hi & _).
  - left. reflexivity.
  - exists last. split; [exact Hr | exact Hi].
Defined.

(** Two bursts: the first call is superseded, the second and the third
    reach [func]. *)
Lemma debounce_invocations_witness :
  Subsequence ["b"; "c"] ["a"; "b"; "c"].
Proof.
  apply (proj1 (debounce_invocations
    [Debounced.Call "a"; Debounced.Call "b"; Debounced.Expire 2%nat;
     Debounced.Call "c"; Debounced.Expire 3%nat]
    {| Debounced.timeout := Some 3%nat; Debounced.timers := [];
       Debounced.next_id := 4%nat; Debounced.invoked := ["b"; "c"] |}
    eq_refl)).
Defined.


(** ** More on the filter engine *)

Lemma filter_andb {A : Type} (f g : A -> bool) (l : list A) :
  filter f (filter g l) = filter (fun x => f x && g x) l.
Proof.
  induction l as [|x l IH]; simpl; [reflexivity|].
  destruct (g x) eqn:G; simpl; rewrite ?andb_true_r, ?andb_false_r.
  - destruct (f x); now rewrite IH.
  - exact IH.
Qed.

(** With every filter on "all", as when the page holds none of the three
    selects, the whole catalog comes back. *)
Theorem applyFilters_wildcards (document : Document) (catalog : list Puppy) :
  FilterManager.getFilterValue document "breed-filter" = "all" ->
  FilterManager.getFilterValue document "age-filter" = "all" ->
  FilterManager.getFilterValue document "gender-filter" = "all" ->
  FilterManager.applyFilters document catalog = catalog.
Proof.
  intros Hb Ha Hg. unfold FilterManager.applyFilters, FilterManager.getActiveFilters.
  cbn [FilterManager.breed_filter FilterManager.age_filter
       FilterManager.gender_filter].
  rewrite Hb, Ha, Hg.
  induction catalog as [|puppy catalog IH]; [reflexivity|].
  cbn [filter].
  change (FilterManager.matchesBreedFilter puppy "all"
          && FilterManager.matchesAgeFilter puppy "all"
          && FilterManager.matchesGenderFilter puppy "all") with true.
  cbv iota. now rewrite IH.
Qed.

(** A page without the selects, and the twelve records. *)
Lemma applyFilters_wildcards_witness :
  FilterManager.applyFilters (fun _ => None) puppies = puppies.
Proof.
  apply applyFilters_wildcards; reflexivity.
Defined.

(** Filtering on the three dimensions at once is filtering on one after
    the other, each with the two other filters on "all". *)
Theorem applyFilters_by_dimension breedValue ageValue genderValue catalog :
  FilterManager.applyFilters (page_with breedValue ageValue genderValue) catalog
  = FilterManager.applyFilters (page_with breedValue "all" "all")
      (FilterManager.applyFilters (page_with "all" ageValue "all")
         (FilterManager.applyFilters (page_with "all" "all" genderValue) catalog)).
Proof.
  unfold FilterManager.applyFilters. rewrite !getActiveFilters_page_with.
  unfold FilterManager.breed_filter, FilterManager.age_filter,
    FilterManager.gender_filter.
  rewrite !filter_andb. apply filter_ext. intros puppy.
  rewrite matchesAgeFilter_all.
  change (FilterManager.matchesBreedFilter puppy "all") with true.
  change (FilterManager.matchesGenderFilter puppy "all") with true.
  destruct (FilterManager.matchesBreedFilter puppy breedValue),
    (FilterManager.matchesAgeFilter puppy ageValue),
    (FilterManager.matchesGenderFilter puppy genderValue); reflexivity.
Qed.

(** Two filterings commute, whatever their criteria. *)
Theorem applyFilters_commute (document1 document2 : Document) catalog :
  FilterManager.applyFilters document1 (FilterManager.applyFilters document2 catalog)
  = FilterManager.applyFilters document2 (FilterManager.applyFilters document1 catalog).
Proof.
  unfold FilterManager.applyFilters. rewrite !filter_andb.
  apply filter_ext. intros puppy. apply andb_comm.
Qed.

Lemma NoDup_map_filter {A B : Type} (key : A -> B) (f : A -> bool) (l : list A) :
  NoDup (map key l) -> NoDup (map key (filter f l)).
Proof.
  induction l as [|x l IH]; simpl; [auto|].
  intros H. inversion H as [|? ? Hx Hl]; subst.
  destruct (f x); simpl; [|auto].
  constructor; [|auto].
  intros Hin. apply Hx. apply in_map_iff in Hin as (y & Hy & Hin).
  apply filter_In in Hin as [Hin _]. apply in_map_iff. eauto.
Qed.

(** Filtering keeps the ids of a catalog distinct, and shows nothing that
    is not in the catalog. *)
Theorem applyFilters_ids (document : Document) (catalog : list Puppy) :
  NoDup (map id catalog) ->
  NoDup (map id (FilterManager.applyFilters document catalog))
  /\ forall puppy, In puppy (FilterManager.applyFilters document catalog) ->
                   In puppy catalog.
Proof.
  intros H. split.
  - now apply NoDup_map_filter.
  - intros puppy Hin. unfold FilterManager.applyFilters in Hin.
    now apply filter_In in Hin.
Qed.

Lemma puppies_ids_distinct : NoDup (map id puppies).
Proof.
  simpl. repeat (constructor; [simpl; intros H; repeat destruct H as [H|H];
                               try discriminate H; try contradiction|]).
  constructor.
Qed.

(** The catalog under the filter for female Cane Corsos. *)
Lemma applyFilters_ids_witness :
  NoDup (map id (FilterManager.applyFilters (page_with "Cane Corso" "all" "Female") puppies)).
Proof.
  apply (proj1 (applyFilters_ids (page_with "Cane Corso" "all" "Female") puppies
                  puppies_ids_distinct)).
Defined.

(** A record whose age has fewer than two parts parses to 0 weeks, below
    both configured buckets: neither bucket shows it, whatever the other
    filters. *)
Theorem malformed_age_hidden_by_buckets breedValue genderValue bucket catalog puppy :
  (List.length (Utils.parts_of (age puppy)) < 2)%nat ->
  bucket = "8-12 weeks" \/ bucket = "3-6 months" ->
  ~ In puppy
      (FilterManager.applyFilters (page_with breedValue bucket genderValue) catalog).
Proof.
  intros Hparts Hbucket Hin.
  unfold FilterManager.applyFilters in Hin.
  rewrite getActiveFilters_page_with in Hin.
  apply filter_In in Hin as [_ Hm]. simpl in Hm.
  apply andb_true_iff in Hm as [Hm _]. apply andb_true_iff in Hm as [_ Hage].
  assert (Hzero : Utils.parseAgeToWeeks (VString (age puppy)) = 0).
  { rewrite parseAgeToWeeks_parts.
    destruct (Utils.parts_of (age puppy)) as [|token [|unit rest]];
      try reflexivity. simpl in Hparts. lia. }
  destruct Hbucket as [-> | ->].
  - apply matchesAgeFilter_8_12 in Hage. lia.
  - apply matchesAgeFilter_3_6 in Hage. lia.
Qed.

(** A record aged "young" under the bucket of 8 to 12 weeks. *)
Lemma malformed_age_hidden_by_buckets_witness :
  ~ In (puppy_aged "young")
      (FilterManager.applyFilters (page_with "all" "8-12 weeks" "all")
         (puppy_aged "young" :: puppies)).
Proof.
  apply malformed_age_hidden_by_buckets; [vm_compute; lia | now left].
Defined.

(** ** More on the paginator *)

Lemma page_length_bound {A : Type} (this : PaginationManager.t)
    (items : list A) (page : option Z) :
  Z.of_nat (List.length (PaginationManager.getItemsForPage this items page))
  <= APP_CONFIG.pagination.itemsPerPage.
Proof.
  unfold PaginationManager.getItemsForPage, slice,
    APP_CONFIG.pagination.itemsPerPage.
  set (p := match page with Some p => p | None => _ end).
  rewrite length_firstn.
  set (len := Z.of_nat (List.length items)).
  destruct (Z.ltb_spec ((p - 1) * 10) 0);
    destruct (Z.ltb_spec ((p - 1) * 10 + 10) 0); lia.
Qed.

(** No page holds more than [itemsPerPage] items, whatever the page
    number, negative ones and the default included. *)
Theorem getItemsForPage_length {A : Type} (this : PaginationManager.t)
    (items : list A) (page : option Z) :
  Z.of_nat (List.length (PaginationManager.getItemsForPage this items page))
  <= APP_CONFIG.pagination.itemsPerPage.
Proof. exact (page_length_bound this items page). Qed.

Lemma page_full {A : Type} (this : PaginationManager.t)
    (items : list A) (page : Z) :
  1 <= page < PaginationManager.pageCount items ->
  Z.of_nat (List.length (PaginationManager.getItemsForPage this items (Some page)))
  = APP_CONFIG.pagination.itemsPerPage.
Proof.
  intros Hp. pose proof (pageCount_bounds items) as Hb. cbv zeta in Hb.
  rewrite getItemsForPage_from_one by lia.
  rewrite length_firstn, length_skipn.
  unfold APP_CONFIG.pagination.itemsPerPage. lia.
Qed.

(** Every page before the last one is full. *)
Theorem getItemsForPage_full {A : Type} (this : PaginationManager.t)
    (items : list A) (page : Z) :
  1 <= page < PaginationManager.pageCount items ->
  Z.of_nat (List.length (PaginationManager.getItemsForPage this items (Some page)))
  = APP_CONFIG.pagination.itemsPerPage.
Proof. exact (page_full this items page). Qed.

(** The first page of the twelve names of the catalog. *)
Lemma getItemsForPage_full_witness :
  Z.of_nat (List.length
    (PaginationManager.getItemsForPage PaginationManager.initial
       (map name puppies) (Some 1)))
  = 10.
Proof.
  apply getItemsForPage_full. vm_compute. split; [discriminate | reflexivity].
Defined.

(** The item at index [i] of the list is on page [i / itemsPerPage + 1],
    at offset [i mod itemsPerPage]. *)
Theorem getItemsForPage_locate {A : Type} (this : PaginationManager.t)
    (items : list A) (i : nat) :
  nth_error
    (PaginationManager.getItemsForPage this items
       (Some (Z.of_nat i / APP_CONFIG.pagination.itemsPerPage + 1)))
    (i mod 10)
  = nth_error items i.
Proof.
  unfold APP_CONFIG.pagination.itemsPerPage.
  assert (0 <= Z.of_nat i / 10) by (apply Z.div_pos; lia).
  rewrite getItemsForPage_from_one by lia.
  change (Z.to_nat APP_CONFIG.pagination.itemsPerPage) with 10%nat.
  rewrite nth_error_firstn, nth_error_skipn.
  pose proof (Nat.mod_upper_bound i 10 ltac:(lia)) as Hm.
  destruct (Nat.ltb_spec (i mod 10) 10); [|lia].
  f_equal.
  assert (Hd : Z.of_nat i / 10 = Z.of_nat (i / 10))
    by (rewrite (Nat2Z.inj_div i 10); reflexivity).
  replace (Z.to_nat (Z.of_nat i / 10 + 1 - 1)) with (i / 10)%nat
    by (rewrite Hd; lia).
  symmetry. apply Nat.div_mod_eq.
Qed.

(** The controls are rendered exactly when the items do not fit on one
    page. *)
Theorem render_suppressed {A : Type} (this : PaginationManager.t) (items : list A)
    (content : list PaginationManager.PaginationItem) :
  PaginationManager.render this items (Some content) = Some []
  <-> Z.of_nat (List.length items) <= APP_CONFIG.pagination.itemsPerPage.
Proof.
  pose proof (pageCount_bounds items) as Hb. cbv zeta in Hb.
  unfold PaginationManager.render, APP_CONFIG.pagination.itemsPerPage.
  destruct (Z.leb_spec (PaginationManager.pageCount items) 1); split;
    try reflexivity; try lia.
  discriminate.
Qed.

Lemma render_items {A : Type} (this : PaginationManager.t) (items : list A) content :
  1 < PaginationManager.pageCount items ->
  PaginationManager.render this items (Some content)
  = Some
      (PaginationManager.createPaginationItem "&laquo;"
         (PaginationManager.currentPage this - 1)
         (PaginationManager.currentPage this =? 1) "Previous" false
       :: map (fun i =>
                 PaginationManager.createPaginationItem (number_to_string i) i false
                   ("Page " ++ number_to_string i)
                   (i =? PaginationManager.currentPage this))
              (for_range (PaginationManager.startPage this)
                 (PaginationManager.endPage this items))
       ++ [PaginationManager.createPaginationItem "&raquo;"
             (PaginationManager.currentPage this + 1)
             (PaginationManager.currentPage this =? PaginationManager.pageCount items)
             "Next" false])%list.
Proof.
  intros Hpc. unfold PaginationManager.render.
  now destruct (Z.leb_spec (PaginationManager.pageCount items) 1); [lia|].
Qed.

Lemma enabled_item_in_range {A : Type} (this : PaginationManager.t)
    (items : list A) content rendered item :
  1 <= PaginationManager.currentPage this <= PaginationManager.pageCount items ->
  PaginationManager.render this items (Some content) = Some rendered ->
  In item rendered ->
  PaginationManager.disabled item = false ->
  1 <= PaginationManager.page item <= PaginationManager.pageCount items.
Proof.
  intros Hcur Hr Hin Hen.
  destruct (Z.le_gt_cases (PaginationManager.pageCount items) 1) as [Hle|Hgt].
  - unfold PaginationManager.render in Hr.
    destruct (Z.leb_spec (PaginationManager.pageCount items) 1); [|lia].
    injection Hr as <-. contradiction.
  - rewrite (render_items this items content) in Hr by lia.
    injection Hr as <-. destruct Hin as [<- | Hin].
    + simpl in *. apply Z.eqb_neq in Hen. lia.
    + apply in_app_or in Hin as [Hin | [<- | []]].
      * apply in_map_iff in Hin as (i & <- & Hi). simpl.
        apply In_for_range in Hi.
        unfold PaginationManager.startPage, PaginationManager.endPage in Hi. lia.
      * simpl in *. apply Z.eqb_neq in Hen. lia.
Qed.

(** Every rendered control that is not disabled leads to a page that
    exists, as long as the current page does. *)
Theorem render_enabled_in_range {A : Type} (this : PaginationManager.t)
    (items : list A) content rendered item :
  1 <= PaginationManager.currentPage this <= PaginationManager.pageCount items ->
  PaginationManager.render this items (Some content) = Some rendered ->
  In item rendered ->
  PaginationManager.disabled item = false ->
  1 <= PaginationManager.page item <= PaginationManager.pageCount items.
Proof. exact (enabled_item_in_range this items content rendered item). Qed.

(** The twelve names on page 1: the control for page 2. *)
Lemma render_enabled_in_range_witness :
  1 <= 2 <= PaginationManager.pageCount (map name puppies).
Proof.
  assert (Hcur : 1 <= PaginationManager.currentPage PaginationManager.initial
                   <= PaginationManager.pageCount (map name puppies))
    by (vm_compute; split; discriminate).
  refine (render_enabled_in_range PaginationManager.initial (map name puppies) []
            _ (PaginationManager.createPaginationItem "2" 2 false "Page 2" false)
            Hcur eq_refl _ eq_refl).
  vm_compute. auto.
Defined.

Lemma filter_eqb_count_up_above current first n :
  current < first ->
  filter (fun i => i =? current) (count_up first n) = [].
Proof.
  revert first; induction n as [|n IH]; intros first H; simpl; [reflexivity|].
  destruct (Z.eqb_spec first current); [lia|]. apply IH. lia.
Qed.

Lemma filter_eqb_count_up current first n :
  first <= current < first + Z.of_nat n ->
  filter (fun i => i =? current) (count_up first n) = [current].
Proof.
  revert first; induction n as [|n IH]; intros first H; [lia|].
  simpl. destruct (Z.eqb_spec first current) as [->|Hne].
  - f_equal. apply filter_eqb_count_up_above. lia.
  - apply IH. lia.
Qed.

(** Exactly one rendered item is marked active: the one of the current
    page. *)
Theorem render_one_active {A : Type} (this : PaginationManager.t) (items : list A)
    content rendered :
  1 < PaginationManager.pageCount items ->
  1 <= PaginationManager.currentPage this <= PaginationManager.pageCount items ->
  PaginationManager.render this items (Some content) = Some rendered ->
  map PaginationManager.page (filter PaginationManager.active rendered)
  = [PaginationManager.currentPage this].
Proof.
  intros Hpc Hcur Hr. rewrite (render_items this items content Hpc) in Hr.
  injection Hr as <-. cbn [filter PaginationManager.active
    PaginationManager.createPaginationItem].
  rewrite filter_app. cbn [filter PaginationManager.active
    PaginationManager.createPaginationItem]. rewrite app_nil_r.
  set (mk := fun i => PaginationManager.createPaginationItem _ i false _ _).
  assert (Hmap : forall l,
    map PaginationManager.page (filter PaginationManager.active (map mk l))
    = filter (fun i => i =? PaginationManager.currentPage this) l).
  { induction l as [|i l IH]; simpl; [reflexivity|].
    destruct (i =? PaginationManager.currentPage this); simpl; now rewrite IH. }
  rewrite Hmap. unfold for_range. apply filter_eqb_count_up.
  unfold PaginationManager.endPage, PaginationManager.startPage. lia.
Qed.

(** The twelve names on page 1. *)
Lemma render_one_active_witness :
  exists rendered,
    PaginationManager.render PaginationManager.initial (map name puppies) (Some [])
    = Some rendered
    /\ map PaginationManager.page (filter PaginationManager.active rendered) = [1].
Proof.
  eexists. split; [reflexivity|].
  apply (render_one_active PaginationManager.initial (map name puppies) []).
  - reflexivity.
  - vm_compute. split; discriminate.
  - reflexivity.
Defined.

(** ** AvailablePage *)

Lemma render_ignores_content {A : Type} (this : PaginationManager.t) (items : list A)
    content content' :
  PaginationManager.render this items (Some content)
  = PaginationManager.render this items (Some content').
Proof. reflexivity. Qed.

Lemma render_consistent (this : AvailablePage.t) :
  1 <= PaginationManager.currentPage (AvailablePage.pagination this)
    <= Z.max 1 (PaginationManager.pageCount (AvailablePage.filteredPuppies this)) ->
  consistent (AvailablePage.render this).
Proof.
  intros Hcur. unfold consistent, AvailablePage.render,
    AvailablePage.renderPagination, AvailablePage.renderPuppyGrid.
  destruct (AvailablePage.puppyGrid this) as [grid|] eqn:Hg;
    cbn [AvailablePage.filteredPuppies AvailablePage.pagination
         AvailablePage.puppyGrid AvailablePage.paginationContainer];
    (split; [exact Hcur|]); split.
  - intros items Hi.
    destruct (AvailablePage.paginationContainer this) as [content|];
      [|discriminate Hi].
    now rewrite (render_ignores_content _ _ items content).
  - intros grid' E. now injection E as <-.
  - intros items Hi.
    destruct (AvailablePage.paginationContainer this) as [content|];
      [|discriminate Hi].
    now rewrite (render_ignores_content _ _ items content).
  - rewrite Hg. discriminate.
Qed.

Lemma reachable_consistent puppies this :
  AvailablePage.reachable puppies this -> consistent this.
Proof.
  induction 1 as [hasGrid hasContainer | document this Hr IH
                 | item items this Hr IH Hc Hin].
  - apply render_consistent. unfold PaginationManager.initial.
    cbn [AvailablePage.filteredPuppies AvailablePage.pagination
         PaginationManager.currentPage]. lia.
  - apply render_consistent. unfold PaginationManager.reset.
    cbn [AvailablePage.filteredPuppies AvailablePage.pagination
         PaginationManager.currentPage]. lia.
  - unfold AvailablePage.clickItem.
    destruct (PaginationManager.disabled item) eqn:Hd; [exact IH|].
    apply render_consistent.
    cbn [AvailablePage.filteredPuppies AvailablePage.pagination].
    unfold PaginationManager.click. rewrite Hd.
    cbn [PaginationManager.currentPage].
    destruct IH as (Hcur & Hsync & _).
    specialize (Hsync items Hc).
    destruct (Z.le_gt_cases
                (PaginationManager.pageCount (AvailablePage.filteredPuppies this)) 1)
      as [Hle|Hgt].
    + unfold PaginationManager.render in Hsync.
      destruct (Z.leb_spec
                  (PaginationManager.pageCount (AvailablePage.filteredPuppies this)) 1);
        [|lia].
      injection Hsync as <-. contradiction.
    + assert (Hin_range :
        1 <= PaginationManager.currentPage (AvailablePage.pagination this)
          <= PaginationManager.pageCount (AvailablePage.filteredPuppies this))
        by lia.
      pose proof (enabled_item_in_range _ _ items items item
                    Hin_range Hsync Hin Hd). lia.
Qed.

(** Whatever filterings and clicks came before, the current page is a
    page that exists: between 1 and [pageCount], or 1 when nothing is
    left to show. *)
Theorem reachable_page_in_range puppies this :
  AvailablePage.reachable puppies this ->
  1 <= PaginationManager.currentPage (AvailablePage.pagination this)
    <= Z.max 1 (PaginationManager.pageCount (AvailablePage.filteredPuppies this)).
Proof.
  intros Hr. apply (reachable_consistent puppies this Hr).
Qed.

(** The grid is never left blank: it shows the "no results" message when
    no record passes the filters, and otherwise the cards of the current
    page, at least one and at most [itemsPerPage]. *)
Theorem reachable_grid puppies this grid :
  AvailablePage.reachable puppies this ->
  AvailablePage.puppyGrid this = Some grid ->
  (AvailablePage.filteredPuppies this = [] /\ grid = AvailablePage.NoResults)
  \/ exists cards,
       grid = AvailablePage.Cards cards
       /\ cards
          = PaginationManager.getItemsForPage (AvailablePage.pagination this)
              (AvailablePage.filteredPuppies this) None
       /\ 1 <= Z.of_nat (List.length cards) <= APP_CONFIG.pagination.itemsPerPage.
Proof.
  intros Hr Hg.
  destruct (reachable_consistent puppies this Hr) as (Hcur & _ & Hgrid).
  rewrite (Hgrid grid Hg). unfold shown_grid.
  set (filtered := AvailablePage.filteredPuppies this) in *.
  set (pagination := AvailablePage.pagination this) in *.
  destruct (Z.eqb_spec (Z.of_nat (List.length filtered)) 0) as [Hz|Hnz].
  - left. split; [|reflexivity]. destruct filtered; [reflexivity | simpl in Hz; lia].
  - right. eexists. split; [reflexivity|]. split; [reflexivity|].
    split; [|apply page_length_bound].
    pose proof (pageCount_bounds filtered) as Hb. cbv zeta in Hb.
    change (PaginationManager.getItemsForPage pagination filtered None)
      with (PaginationManager.getItemsForPage pagination filtered
              (Some (PaginationManager.currentPage pagination))).
    destruct (Z.eq_dec (PaginationManager.currentPage pagination)
                (PaginationManager.pageCount filtered)) as [E|E].
    + rewrite E. apply (last_page_size pagination filtered).
      intros E'. rewrite E' in Hnz. now apply Hnz.
    + rewrite (page_full pagination filtered) by lia.
      unfold APP_CONFIG.pagination.itemsPerPage. lia.
Qed.

(** The catalog filtered for a breed nobody has. *)
Lemma reachable_grid_witness :
  AvailablePage.puppyGrid
    (AvailablePage.applyFilters puppies (page_with "Poodle" "all" "all")
       (AvailablePage.init puppies true true))
  = Some AvailablePage.NoResults.
Proof.
  destruct (reachable_grid puppies
              (AvailablePage.applyFilters puppies (page_with "Poodle" "all" "all")
                 (AvailablePage.init puppies true true))
              AvailablePage.NoResults) as [[_ _] | (cards & E & _)].
  - apply AvailablePage.reachable_applyFilters, AvailablePage.reachable_init.
  - reflexivity.
  - reflexivity.
  - discriminate E.
Defined.

(** The catalog as [init] leaves it: page 1 of 2. *)
Lemma reachable_page_in_range_witness :
  1 <= PaginationManager.currentPage
         (AvailablePage.pagination (AvailablePage.init puppies true true))
    <= 2.
Proof.
  apply (reachable_page_in_range puppies (AvailablePage.init puppies true true)).
  apply AvailablePage.reachable_init.
Defined.

(** Filtering always lands on the first page: from any state of a page
    that has a grid, the grid then shows the first [itemsPerPage] records
    that pass the filters, or the "no results" message. *)
Theorem applyFilters_first_page puppies document this :
  AvailablePage.puppyGrid this <> None ->
  let filtered := FilterManager.applyFilters document puppies in
  let next := AvailablePage.applyFilters puppies document this in
  AvailablePage.filteredPuppies next = filtered
  /\ PaginationManager.currentPage (AvailablePage.pagination next) = 1
  /\ AvailablePage.puppyGrid next
     = Some (match filtered with
             | [] => AvailablePage.NoResults
             | _ => AvailablePage.Cards (firstn 10 filtered)
             end).
Proof.
  intros Hg filtered next.
  unfold next, AvailablePage.applyFilters, AvailablePage.render,
    AvailablePage.renderPagination, AvailablePage.renderPuppyGrid.
  cbn [AvailablePage.puppyGrid AvailablePage.filteredPuppies
       AvailablePage.pagination AvailablePage.paginationContainer].
  destruct (AvailablePage.puppyGrid this) as [grid|]; [|contradiction].
  cbn [AvailablePage.puppyGrid AvailablePage.filteredPuppies
       AvailablePage.pagination AvailablePage.paginationContainer].
  fold filtered. split; [reflexivity|]. split; [reflexivity|].
  f_equal. destruct filtered as [|puppy rest] eqn:E; [reflexivity|].
  rewrite <- E.
  destruct (Z.eqb_spec (Z.of_nat (List.length filtered)) 0) as [Hz|_];
    [rewrite E in Hz; simpl in Hz; lia|].
  f_equal.
  change (PaginationManager.getItemsForPage _ filtered None)
    with (PaginationManager.getItemsForPage PaginationManager.initial filtered (Some 1)).
  rewrite getItemsForPage_from_one by lia. reflexivity.
Qed.

(** The catalog filtered for males: eight records, all on the first
    page. *)
Lemma applyFilters_first_page_witness :
  AvailablePage.puppyGrid
    (AvailablePage.applyFilters puppies (page_with "all" "all" "Male")
       (AvailablePage.init puppies true true))
  = Some (AvailablePage.Cards
            (firstn 10 (FilterManager.applyFilters (page_with "all" "all" "Male") puppies))).
Proof.
  apply (applyFilters_first_page puppies (page_with "all" "all" "Male")
           (AvailablePage.init puppies true true)).
  discriminate.
Defined.

(** ** The selected puppy and the order summary *)

(** [loadPuppyData] finds a record of the catalog that has the wanted id,
    and none only when no record has it; when the ids of the catalog are
    distinct, every record is found by its own id. *)
Theorem loadPuppyData_spec (puppies : list Puppy) (puppyId : option string) :
  (forall puppy,
      OrderSummary.loadPuppyData puppies puppyId = Some puppy ->
      In puppy puppies /\ puppyId = Some (id puppy))
  /\ (OrderSummary.loadPuppyData puppies puppyId = None
      <-> forall puppy, In puppy puppies -> puppyId <> Some (id puppy))
  /\ (NoDup (map id puppies) ->
      forall puppy, In puppy puppies ->
                    OrderSummary.loadPuppyData puppies (Some (id puppy)) = Some puppy).
Proof.
  unfold OrderSummary.loadPuppyData. split; [|split].
  - intros puppy H. apply find_some in H as [Hin Hid]. split; [exact Hin|].
    destruct puppyId as [wanted|]; [|discriminate].
    apply String.eqb_eq in Hid. now subst.
  - split.
    + intros H puppy Hin E. pose proof (find_none _ _ H puppy Hin) as Hf.
      rewrite E in Hf. simpl in Hf. now rewrite String.eqb_refl in Hf.
    + intros H. destruct (find _ puppies) as [puppy|] eqn:E; [|reflexivity].
      apply find_some in E as [Hin Hid]. exfalso. apply (H puppy Hin).
      destruct puppyId as [wanted|]; [|discriminate].
      apply String.eqb_eq in Hid. now subst.
  - intros Hnd puppy Hin. induction puppies as [|first rest IH]; [contradiction|].
    simpl in *. inversion Hnd as [|? ? Hfirst Hrest]; subst.
    destruct Hin as [-> | Hin]; [now rewrite String.eqb_refl|].
    destruct (String.eqb_spec (id first) (id puppy)) as [E|_]; [|auto].
    exfalso. apply Hfirst. rewrite E. now apply in_map.
Qed.

(** The catalog: the id "st01" finds Rocky, its last record. *)
Lemma loadPuppyData_spec_witness :
  OrderSummary.loadPuppyData puppies (Some "st01")
  = Some (nth 11 puppies (puppy_aged "")).
Proof.
  apply (proj2 (proj2 (loadPuppyData_spec puppies None)) puppies_ids_distinct
           (nth 11 puppies (puppy_aged ""))).
  vm_compute. auto 20.
Defined.










(** ** More on the age parser *)

Lemma lower_char_white_space c : is_white_space (lower_char c) = is_white_space c.
Proof. ascii_cases c. Qed.

Lemma lower_char_idempotent c : lower_char (lower_char c) = lower_char c.
Proof. ascii_cases c. Qed.

Lemma toLowerCase_idempotent s : toLowerCase (toLowerCase s) = toLowerCase s.
Proof.
  induction s as [|c r IH]; simpl; [reflexivity|].
  now rewrite lower_char_idempotent, IH.
Qed.

Lemma trimStart_toLowerCase s : trimStart (toLowerCase s) = toLowerCase (trimStart s).
Proof.
  induction s as [|c r IH]; simpl; [reflexivity|].
  rewrite lower_char_white_space. now destruct (is_white_space c).
Qed.

Lemma trimEnd_toLowerCase s : trimEnd (toLowerCase s) = toLowerCase (trimEnd s).
Proof.
  induction s as [|c r IH]; simpl; [reflexivity|].
  rewrite IH, lower_char_white_space.
  destruct (trimEnd r); simpl; [now destruct (is_white_space c) | reflexivity].
Qed.

Lemma parts_of_toLowerCase s : Utils.parts_of (toLowerCase s) = Utils.parts_of s.
Proof.
  unfold Utils.parts_of, trim.
  now rewrite trimStart_toLowerCase, trimEnd_toLowerCase, toLowerCase_idempotent.
Qed.

(** The age parser does not see the case of letters: two inputs with the
    same lower-case form parse to the same number. *)
Theorem parseAgeToWeeks_case_insensitive s1 s2 :
  toLowerCase s1 = toLowerCase s2 ->
  Utils.parseAgeToWeeks (VString s1) = Utils.parseAgeToWeeks (VString s2).
Proof.
  intros H. rewrite !parseAgeToWeeks_parts.
  now rewrite <- (parts_of_toLowerCase s1), <- (parts_of_toLowerCase s2), H.
Qed.

(** "3 MONTHS" and "3 Months". *)
Lemma parseAgeToWeeks_case_insensitive_witness :
  Utils.parseAgeToWeeks (VString "3 MONTHS") = Utils.parseAgeToWeeks (VString "3 Months").
Proof.
  apply parseAgeToWeeks_case_insensitive. reflexivity.
Defined.

Lemma trimStart_white_space w s :
  all_white_space w = true -> trimStart (w ++ s) = trimStart s.
Proof.
  unfold all_white_space. induction w as [|c r IH]; simpl; [reflexivity|].
  rewrite andb_true_iff. intros [-> Hr]. auto.
Qed.

Lemma trimStart_all_white_space w : all_white_space w = true -> trimStart w = "".
Proof.
  unfold all_white_space. induction w as [|c r IH]; simpl; [reflexivity|].
  rewrite andb_true_iff. intros [-> Hr]. auto.
Qed.

Lemma trimEnd_white_space w : all_white_space w = true -> trimEnd w = "".
Proof.
  unfold all_white_space. induction w as [|c r IH]; simpl; [reflexivity|].
  rewrite andb_true_iff. intros [-> Hr]. now rewrite (IH Hr).
Qed.

Lemma trimEnd_app_white_space s w :
  all_white_space w = true -> trimEnd (s ++ w) = trimEnd s.
Proof.
  intros Hw. induction s as [|c r IH]; simpl.
  - now apply trimEnd_white_space.
  - now rewrite IH.
Qed.

Lemma trim_app_white_space s w : all_white_space w = true -> trim (s ++ w) = trim s.
Proof.
  intros Hw. unfold trim. induction s as [|c r IH]; simpl.
  - now rewrite (trimStart_all_white_space w Hw).
  - destruct (is_white_space c); [exact IH|].
    now apply (trimEnd_app_white_space (String c r)).
Qed.

(** White space around the input is ignored. *)
Theorem parseAgeToWeeks_surrounding_white_space before s after :
  all_white_space before = true -> all_white_space after = true ->
  Utils.parseAgeToWeeks (VString (before ++ s ++ after))
  = Utils.parseAgeToWeeks (VString s).
Proof.
  intros Hb Ha. rewrite !parseAgeToWeeks_parts. unfold Utils.parts_of.
  assert (E : trim (before ++ s ++ after) = trim s).
  { unfold trim. rewrite (trimStart_white_space before _ Hb).
    apply (trim_app_white_space s after Ha). }
  now rewrite E.
Qed.

(** "10 weeks" between a TAB and two spaces. *)
Lemma parseAgeToWeeks_surrounding_white_space_witness :
  Utils.parseAgeToWeeks (VString (tab ++ "10 weeks" ++ "  ")) = 10.
Proof.
  now rewrite (parseAgeToWeeks_surrounding_white_space tab "10 weeks" "  " eq_refl eq_refl).
Defined.

Lemma parseInt_negative ds rest :
  ds <> "" -> all_digits ds = true ->
  starts_with_digit rest = false ->
  has_hex_prefix (ds ++ rest) = false ->
  parseInt (String "-" (ds ++ rest)) = Some (- numeral_value ds).
Proof.
  intros Hne Hds Hrest Hhex. unfold parseInt.
  change (trimStart (String "-" (ds ++ rest))) with (String "-" (ds ++ rest)).
  cbn [strip_sign]. rewrite (strip_prefix_spec _ Hhex).
  rewrite (leading_digits_all_digits _ _ Hds Hrest).
  rewrite <- digits_value_digits_of.
  destruct ds as [|c r]; [contradiction|].
  cbn [digits_of]. f_equal; lia.
Qed.

(** A minus sign before the numeral is accepted, and the age comes out
    negative: -N for a unit of weeks, -4N for a unit of months. *)
Theorem parseAgeToWeeks_negative (n : nat) (unit : string) :
  Z.of_nat n <= MAX_SAFE_INTEGER ->
  no_white_space unit = true ->
  (includes (toLowerCase unit) "week" = true ->
   Utils.parseAgeToWeeks (VString (String "-" (decimal n) ++ " " ++ unit))
   = - Z.of_nat n)
  /\ (includes (toLowerCase unit) "week" = false ->
      includes (toLowerCase unit) "month" = true ->
      Utils.parseAgeToWeeks (VString (String "-" (decimal n) ++ " " ++ unit))
      = - (4 * Z.of_nat n)).
Proof.
  intros _ Hw.
  assert (Hparse : parseInt (String "-" (decimal n)) = Some (- Z.of_nat n)).
  { rewrite <- (numeral_value_decimal n).
    replace (decimal n) with (decimal n ++ "") at 1
      by (clear; induction (decimal n); simpl; congruence).
    apply parseInt_negative.
    - apply decimal_not_empty.
    - apply all_digits_decimal.
    - reflexivity.
    - replace (decimal n ++ "") with (decimal n)
        by (clear; induction (decimal n); simpl; congruence).
      apply all_digits_no_hex_prefix, all_digits_decimal. }
  assert (Hparts : unit <> "" ->
    Utils.parts_of (String "-" (decimal n) ++ " " ++ unit)
    = [String "-" (decimal n); toLowerCase unit]).
  { intros Hne. rewrite parts_of_pair; auto; try discriminate.
    - cbn [toLowerCase]. now rewrite (toLowerCase_digits _ (all_digits_decimal n)).
    - unfold no_white_space. cbn [string_forall].
      apply (all_digits_no_white_space _ (all_digits_decimal n)). }
  split.
  - intros Hweek.
    assert (Hne : unit <> "") by (intros ->; discriminate Hweek).
    now rewrite parseAgeToWeeks_parts, (Hparts Hne), Hparse, Hweek.
  - intros Hweek Hmonth.
    assert (Hne : unit <> "") by (intros ->; discriminate Hmonth).
    rewrite parseAgeToWeeks_parts, (Hparts Hne), Hparse, Hweek, Hmonth. lia.
Qed.

(** "-5 weeks" and "-2 months". *)
Lemma parseAgeToWeeks_negative_witness :
  Utils.parseAgeToWeeks (VString "-5 weeks") = -5
  /\ Utils.parseAgeToWeeks (VString "-2 months") = -8.
Proof.
  split.
  - apply (proj1 (parseAgeToWeeks_negative 5 "weeks" ltac:(now vm_compute) eq_refl)).
    reflexivity.
  - apply (proj2 (parseAgeToWeeks_negative 2 "months" ltac:(now vm_compute) eq_refl));
      reflexivity.
Defined.

(** *** Hexadecimal numerals *)

Lemma hex_digit_digit_value c :
  is_hex_digit c = true ->
  digit_value c = Some (hex_digit_value c) /\ 0 <= hex_digit_value c < 16.
Proof. ascii_cases c; intros _; split; try reflexivity; vm_compute; split; congruence. Qed.

Lemma not_hex_digit_leading c r :
  is_hex_digit c = false -> leading_digits 16 (String c r) = [].
Proof. ascii_cases c. Qed.

Lemma hex_digit_lower_char c :
  is_hex_digit c = true ->
  is_hex_digit (lower_char c) = true
  /\ hex_digit_value (lower_char c) = hex_digit_value c.
Proof. ascii_cases c; intros _; split; reflexivity. Qed.

Lemma hex_digit_not_white_space c : is_hex_digit c = true -> is_white_space c = false.
Proof. ascii_cases c. Qed.

Lemma leading_digits_hex hs rest :
  all_hex_digits hs = true -> starts_with_hex_digit rest = false ->
  leading_digits 16 (hs ++ rest) = map hex_digit_value (list_ascii_of_string hs).
Proof.
  unfold all_hex_digits. intros Hhs Hrest.
  induction hs as [|c r IH]; simpl.
  - destruct rest as [|c r]; [reflexivity|]. now apply not_hex_digit_leading.
  - simpl in Hhs. apply andb_true_iff in Hhs as [Hc Hr].
    destruct (hex_digit_digit_value c Hc) as [-> Hlt].
    destruct (Z.ltb_spec (hex_digit_value c) 16); [|lia].
    now rewrite (IH Hr).
Qed.

Lemma fold_hex_digits hs acc :
  fold_left (fun acc d => acc * 16 + d)
    (map hex_digit_value (list_ascii_of_string hs)) acc
  = acc * 16 ^ Z.of_nat (String.length hs) + hex_value hs.
Proof.
  revert acc; induction hs as [|c r IH]; intros acc.
  - simpl. lia.
  - cbn [list_ascii_of_string map fold_left hex_value String.length].
    rewrite IH, Nat2Z.inj_succ, Z.pow_succ_r by lia. ring.
Qed.

Lemma parseInt_hex hs rest :
  hs <> "" -> all_hex_digits hs = true ->
  starts_with_hex_digit rest = false ->
  parseInt (String "0" (String "x" (hs ++ rest))) = Some (hex_value hs).
Proof.
  intros Hne Hhs Hrest. unfold parseInt.
  change (trimStart (String "0" (String "x" (hs ++ rest))))
    with (String "0" (String "x" (hs ++ rest))).
  cbn [strip_sign strip_prefix].
  rewrite (leading_digits_hex _ _ Hhs Hrest).
  assert (Hv : digits_value 16 (map hex_digit_value (list_ascii_of_string hs))
               = hex_value hs)
    by (unfold digits_value; rewrite fold_hex_digits; lia).
  rewrite <- Hv.
  destruct hs as [|c r]; [contradiction|].
  cbn [list_ascii_of_string map]. now rewrite Z.mul_1_l.
Qed.

Lemma toLowerCase_hex hs :
  all_hex_digits hs = true ->
  all_hex_digits (toLowerCase hs) = true
  /\ hex_value (toLowerCase hs) = hex_value hs
  /\ String.length (toLowerCase hs) = String.length hs.
Proof.
  unfold all_hex_digits. induction hs as [|c r IH]; simpl; [auto|].
  rewrite andb_true_iff. intros [Hc Hr].
  destruct (hex_digit_lower_char c Hc) as [Hl Hv].
  destruct (IH Hr) as (Ha & Hx & Hlen).
  now rewrite Hl, Ha, Hv, Hx, Hlen.
Qed.

(** [parseInt] is called without a radix, so a first token that begins
    with "0x" is read in base 16: such a numeral before a unit of weeks
    parses to its hexadecimal value. *)
Theorem parseAgeToWeeks_hexadecimal (hs unit : string) :
  hs <> "" -> all_hex_digits hs = true ->
  hex_value hs <= MAX_SAFE_INTEGER ->
  no_white_space unit = true ->
  includes (toLowerCase unit) "week" = true ->
  Utils.parseAgeToWeeks (VString (String "0" (String "x" hs) ++ " " ++ unit))
  = hex_value hs.
Proof.
  intros Hne Hhs _ Hw Hweek.
  assert (Hu : unit <> "") by (intros ->; discriminate Hweek).
  destruct (toLowerCase_hex hs Hhs) as (Hl & Hv & Hlen).
  rewrite parseAgeToWeeks_parts, parts_of_pair; auto; try discriminate.
  - cbn [toLowerCase].
    change (lower_char "0") with "0"%char. change (lower_char "x") with "x"%char.
    replace (toLowerCase hs) with (toLowerCase hs ++ "")
      by (clear; induction (toLowerCase hs); simpl; congruence).
    rewrite parseInt_hex; auto.
    + now rewrite Hweek, Hv.
    + intros E. apply Hne. destruct hs; [reflexivity | discriminate E].
  - unfold no_white_space. cbn [string_forall].
    change (negb (is_white_space "0") && (negb (is_white_space "x")
            && string_forall (fun c => negb (is_white_space c)) hs) = true).
    simpl. revert Hhs. unfold all_hex_digits. apply string_forall_impl.
    intros c Hc. now rewrite (hex_digit_not_white_space c Hc).
Qed.

(** "0x10 weeks" and "0x1F Weeks". *)
Lemma parseAgeToWeeks_hexadecimal_witness :
  Utils.parseAgeToWeeks (VString "0x10 weeks") = 16
  /\ Utils.parseAgeToWeeks (VString "0x1F Weeks") = 31.
Proof.
  split.
  - apply (parseAgeToWeeks_hexadecimal "10" "weeks"); try reflexivity;
      [discriminate | now vm_compute].
  - apply (parseAgeToWeeks_hexadecimal "1F" "Weeks"); try reflexivity;
      [discriminate | now vm_compute].
Defined.

(** ** Moving between pages *)

Lemma reachable_items_many puppies this items item :
  AvailablePage.reachable puppies this ->
  AvailablePage.paginationContainer this = Some items ->
  In item items ->
  1 < PaginationManager.pageCount (AvailablePage.filteredPuppies this)
  /\ 1 <= PaginationManager.currentPage (AvailablePage.pagination this)
       <= PaginationManager.pageCount (AvailablePage.filteredPuppies this)
  /\ PaginationManager.render (AvailablePage.pagination this)
       (AvailablePage.filteredPuppies this) (Some items) = Some items.
Proof.
  intros Hr Hc Hin.
  destruct (reachable_consistent puppies this Hr) as (Hcur & Hsync & _).
  specialize (Hsync items Hc).
  destruct (Z.le_gt_cases
              (PaginationManager.pageCount (AvailablePage.filteredPuppies this)) 1)
    as [Hle|Hgt].
  - unfold PaginationManager.render in Hsync.
    destruct (Z.leb_spec
                (PaginationManager.pageCount (AvailablePage.filteredPuppies this)) 1);
      [|lia].
    injection Hsync as <-. contradiction.
  - repeat split; try lia. exact Hsync.
Qed.

(** A click on a control that is not disabled makes its page the current
    one, and the grid then shows the records of that page. *)
Theorem clickItem_shows_page puppies this items item grid :
  AvailablePage.reachable puppies this ->
  AvailablePage.paginationContainer this = Some items ->
  In item items ->
  PaginationManager.disabled item = false ->
  AvailablePage.puppyGrid this = Some grid ->
  let next := AvailablePage.clickItem item this in
  PaginationManager.currentPage (AvailablePage.pagination next)
  = PaginationManager.page item
  /\ AvailablePage.filteredPuppies next = AvailablePage.filteredPuppies this
  /\ AvailablePage.puppyGrid next
     = Some (AvailablePage.Cards
               (PaginationManager.getItemsForPage (AvailablePage.pagination this)
                  (AvailablePage.filteredPuppies this)
                  (Some (PaginationManager.page item)))).
Proof.
  intros Hr Hc Hin Hd Hg next.
  destruct (reachable_items_many puppies this items item Hr Hc Hin) as (Hpc & _ & _).
  pose proof (pageCount_bounds (AvailablePage.filteredPuppies this)) as Hb.
  cbv zeta in Hb.
  unfold next, AvailablePage.clickItem. rewrite Hd.
  unfold AvailablePage.render, AvailablePage.renderPagination,
    AvailablePage.renderPuppyGrid, PaginationManager.click.
  rewrite Hd.
  cbn [AvailablePage.puppyGrid AvailablePage.filteredPuppies
       AvailablePage.pagination AvailablePage.paginationContainer].
  rewrite Hg.
  cbn [AvailablePage.puppyGrid AvailablePage.filteredPuppies
       AvailablePage.pagination AvailablePage.paginationContainer
       PaginationManager.currentPage].
  split; [reflexivity|]. split; [reflexivity|].
  destruct (Z.eqb_spec
              (Z.of_nat (List.length (AvailablePage.filteredPuppies this))) 0);
    [lia | reflexivity].
Qed.

(** The catalog on page 1: a click on the control of page 2 shows the two
    records that remain. *)
Lemma clickItem_shows_page_witness :
  AvailablePage.puppyGrid
    (AvailablePage.clickItem
       (PaginationManager.createPaginationItem "2" 2 false "Page 2" false)
       (AvailablePage.init puppies true true))
  = Some (AvailablePage.Cards (skipn 10 puppies)).
Proof.
  refine (proj2 (proj2
    (clickItem_shows_page puppies (AvailablePage.init puppies true true) _
       (PaginationManager.createPaginationItem "2" 2 false "Page 2" false)
       (AvailablePage.Cards (firstn 10 puppies))
       (AvailablePage.reachable_init puppies true true) eq_refl _ eq_refl eq_refl))).
  vm_compute. auto.
Defined.

Lemma render_record filtered pagination grid items :
  AvailablePage.render
    {| AvailablePage.filteredPuppies := filtered;
       AvailablePage.pagination := pagination;
       AvailablePage.puppyGrid := grid;
       AvailablePage.paginationContainer := Some items |}
  = {| AvailablePage.filteredPuppies := filtered;
       AvailablePage.pagination := pagination;
       AvailablePage.puppyGrid :=
         match grid with
         | Some _ => Some (shown_grid filtered pagination)
         | None => None
         end;
       AvailablePage.paginationContainer :=
         PaginationManager.render pagination filtered (Some items) |}.
Proof. destruct grid; reflexivity. Qed.

Lemma clickItem_enabled item this :
  PaginationManager.disabled item = false ->
  AvailablePage.clickItem item this
  = AvailablePage.render
      {| AvailablePage.filteredPuppies := AvailablePage.filteredPuppies this;
         AvailablePage.pagination :=
           {| PaginationManager.currentPage := PaginationManager.page item |};
         AvailablePage.puppyGrid := AvailablePage.puppyGrid this;
         AvailablePage.paginationContainer :=
           AvailablePage.paginationContainer this |}.
Proof.
  intros Hd. unfold AvailablePage.clickItem, PaginationManager.click.
  now rewrite Hd.
Qed.

(** Next and then Previous lead back: from a page that is not the last,
    clicking the last control (Next) and then the first control
    (Previous) of what is rendered restores the page as it was. *)
Theorem next_then_previous puppies this items item :
  AvailablePage.reachable puppies this ->
  AvailablePage.paginationContainer this = Some items ->
  In item items ->
  PaginationManager.currentPage (AvailablePage.pagination this)
  < PaginationManager.pageCount (AvailablePage.filteredPuppies this) ->
  let default := PaginationManager.createPaginationItem "" 0 true "" false in
  let after_next := AvailablePage.clickItem (last items default) this in
  exists items',
    AvailablePage.paginationContainer after_next = Some items'
    /\ PaginationManager.currentPage (AvailablePage.pagination after_next)
       = PaginationManager.currentPage (AvailablePage.pagination this) + 1
    /\ AvailablePage.clickItem (hd default items') after_next = this.
Proof.
  intros Hr Hc Hin Hlast default after_next.
  destruct (reachable_items_many puppies this items item Hr Hc Hin)
    as (Hpc & Hcur & Hsync).
  destruct (reachable_consistent puppies this Hr) as (_ & _ & Hgrid).
  destruct this as [filtered pagination grid container].
  cbn [AvailablePage.filteredPuppies AvailablePage.pagination
       AvailablePage.puppyGrid AvailablePage.paginationContainer] in *.
  subst container. clear Hr.
  pose proof (render_items pagination filtered items Hpc) as Hitems.
  rewrite Hsync in Hitems. injection Hitems as Hitems.
  set (moved := {| PaginationManager.currentPage :=
                     PaginationManager.currentPage pagination + 1 |}).
  assert (Hnext : last items default
                  = PaginationManager.createPaginationItem "&raquo;"
                      (PaginationManager.currentPage pagination + 1)
                      false "Next" false).
  { rewrite Hitems at 1.
    rewrite app_comm_cons, last_last. f_equal.
    apply Z.eqb_neq. lia. }
  assert (Hafter :
    after_next
    = {| AvailablePage.filteredPuppies := filtered;
         AvailablePage.pagination := moved;
         AvailablePage.puppyGrid :=
           match grid with
           | Some _ => Some (shown_grid filtered moved)
           | None => None
           end;
         AvailablePage.paginationContainer :=
           PaginationManager.render moved filtered (Some items) |}).
  { unfold after_next. rewrite clickItem_enabled by (now rewrite Hnext).
    rewrite Hnext.
    cbn [AvailablePage.filteredPuppies AvailablePage.pagination
         AvailablePage.puppyGrid AvailablePage.paginationContainer
         PaginationManager.page PaginationManager.createPaginationItem].
    apply render_record. }
  rewrite Hafter. clear Hafter after_next.
  rewrite (render_items moved filtered items Hpc).
  eexists. split; [reflexivity|]. split; [reflexivity|].
  cbn [hd].
  assert (Hnot_first : (PaginationManager.currentPage moved =? 1) = false).
  { apply Z.eqb_neq. unfold moved. simpl. lia. }
  rewrite clickItem_enabled by exact Hnot_first.
  cbn [AvailablePage.filteredPuppies AvailablePage.pagination
       AvailablePage.puppyGrid AvailablePage.paginationContainer
       PaginationManager.page PaginationManager.createPaginationItem].
  assert (Hback : {| PaginationManager.currentPage :=
                       PaginationManager.currentPage moved - 1 |} = pagination).
  { destruct pagination as [current]. unfold moved. simpl. f_equal. lia. }
  rewrite Hback, render_record.
  rewrite (render_ignores_content pagination filtered _ items), Hsync.
  f_equal. destruct grid as [g|]; [|reflexivity].
  now rewrite (Hgrid g eq_refl).
Qed.

(** The catalog on page 1: Next shows page 2, Previous the first page
    again. *)
Lemma next_then_previous_witness :
  let start := AvailablePage.init puppies true true in
  let next := PaginationManager.createPaginationItem "&raquo;" 2 false "Next" false in
  let previous :=
    PaginationManager.createPaginationItem "&laquo;" 1 false "Previous" false in
  AvailablePage.clickItem previous (AvailablePage.clickItem next start) = start.
Proof.
  intros start next previous.
  destruct (next_then_previous puppies start
              [PaginationManager.createPaginationItem "&laquo;" 0 true "Previous" false;
               PaginationManager.createPaginationItem "1" 1 false "Page 1" true;
               PaginationManager.createPaginationItem "2" 2 false "Page 2" false;
               next]
              next) as (items' & Hc & _ & Hback).
  - apply AvailablePage.reachable_init.
  - reflexivity.
  - simpl. auto.
  - vm_compute. reflexivity.
  - cbn [last] in Hc, Hback. injection Hc as <-. exact Hback.
Defined.

(** ** Formatted prices *)

Lemma length_append (s t : string) :
  String.length (s ++ t) = (String.length s + String.length t)%nat.
Proof. induction s as [|c r IH]; simpl; [reflexivity | now rewrite IH]. Qed.

Lemma append_cancel_r (s1 s2 t : string) : s1 ++ t = s2 ++ t -> s1 = s2.
Proof.
  intros H.
  assert (Hlen : String.length s1 = String.length s2).
  { apply (f_equal String.length) in H. rewrite !length_append in H. lia. }
  revert s2 H Hlen; induction s1 as [|c r IH]; intros [|c' r'] H Hlen;
    try discriminate Hlen; [reflexivity|].
  simpl in H. injection H as -> H. f_equal. apply IH; [exact H|].
  simpl in Hlen. lia.
Qed.

Lemma number_to_string_injective a b :
  number_to_string a = number_to_string b -> a = b.
Proof.
  unfold number_to_string. intros H.
  assert (Hnil : forall z, Z.to_int z <> Decimal.Pos Decimal.Nil
                           /\ Z.to_int z <> Decimal.Neg Decimal.Nil).
  { intros [|p|p]; simpl; split; try discriminate;
      intros E; injection E as E; now apply DecimalPos.Unsigned.to_uint_nonnil in E. }
  apply (f_equal NilZero.int_of_string) in H.
  rewrite !NilZero.isi in H by apply Hnil.
  injection H as H. apply (f_equal Z.of_int) in H.
  now rewrite !DecimalZ.of_to in H.
Qed.

(** Two integer amounts that are formatted alike are equal: the summary
    never shows one text for two different totals. *)
Theorem formatPrice_injective (a b : Z) :
  Z.abs a <= MAX_SAFE_INTEGER -> Z.abs b <= MAX_SAFE_INTEGER ->
  formatPrice (VNumber a) = formatPrice (VNumber b) -> a = b.
Proof.
  intros _ _ H. simpl in H. injection H as H.
  unfold toFixed_2 in H. apply append_cancel_r in H.
  now apply number_to_string_injective.
Qed.

(** The totals 1500 and 1850 are printed differently. *)
Lemma formatPrice_injective_witness :
  formatPrice (VNumber 1500) <> formatPrice (VNumber 1850).
Proof.
  intros H. apply formatPrice_injective in H; [discriminate H | | ]; now vm_compute.
Defined.
